(** * Medical assistant: the relay endpoint and the workflow controller

    A shallow embedding of [server.js] (the [/api/claude] relay) and of the
    staged-analysis handlers of [src/App.jsx] (callClaude, analyzeSymptoms,
    toggleSymptom, analyzeCauses, handleFileUpload), with the properties the
    specification states about them.

    Conventions of the embedding.
    - JavaScript values are the inductive type [Js.value]; numbers are the
      integer-valued ones (the spec's token limit is an integer), strings are
      byte strings.
    - Exceptions are [Eff.Throw message]; async functions run to completion in
      sequence, so [await] is plain sequencing in the monad [Eff.M].
    - The network is an oracle: a function from the request sent to the outcome
      of [fetch] and of the later [response.json()].
    - [JSON.parse] is a builtin of the platform, not code of the repository: the
      controller is stated over an arbitrary parser, and [RefJSON.parse] is a
      reference instance used where a concrete run is evaluated.
    - Time stamps of log entries and writes to the server console are left
      out; expressions evaluated for a console message are kept when they can
      throw. *)

From Stdlib Require Import String Ascii List ZArith Bool Lia DecimalString.
Import ListNotations.
Local Open Scope string_scope.
Set Warnings "-register-all".

(** ** Exceptions and state *)

Module Eff.

Inductive result (A : Type) : Type :=
| Ok (a : A)
| Throw (message : string).
Arguments Ok {A} a.
Arguments Throw {A} message.

Section WithWorld.
Context {W : Type}.

Definition M (A : Type) : Type := W -> result A * W.

Definition ret {A} (a : A) : M A := fun w => (Ok a, w).

Definition bind {A B} (c : M A) (k : A -> M B) : M B :=
  fun w => match c w with
           | (Ok a, w') => k a w'
           | (Throw m, w') => (Throw m, w')
           end.

Definition throw {A} (m : string) : M A := fun w => (Throw m, w).

Definition lift {A} (r : result A) : M A := fun w => (r, w).

Definition gets {A} (f : W -> A) : M A := fun w => (Ok (f w), w).

Definition modify (f : W -> W) : M unit := fun w => (Ok tt, f w).

(** [try { c } catch (error) { h error.message }] *)
Definition try_catch {A} (c : M A) (h : string -> M A) : M A :=
  fun w => match c w with
           | (Ok a, w') => (Ok a, w')
           | (Throw m, w') => h m w'
           end.

(** [try { c } finally { f }]: [f] runs on both exits and the outcome of
    [c] survives unless [f] itself throws. *)
Definition try_finally {A} (c : M A) (f : M unit) : M A :=
  fun w => match c w with
           | (r, w') => match f w' with
                        | (Ok _, w'') => (r, w'')
                        | (Throw m, w'') => (Throw m, w'')
                        end
           end.
End WithWorld.

Arguments M W A : clear implicits.

Module Notations.
Declare Scope eff_scope.
Delimit Scope eff_scope with eff.
Notation "x <- c ;; k" := (bind c (fun x => k))
  (at level 61, c at next level, right associativity) : eff_scope.
Notation "c ;; k" := (bind c (fun _ => k))
  (at level 61, right associativity) : eff_scope.
End Notations.

End Eff.

(** ** JavaScript values *)

Module Js.
Import Eff.

Inductive value : Type :=
| Undefined
| Null
| Bool (b : bool)
| Num (n : Z)
| Str (s : string)
| Arr (xs : list value)
| Obj (fields : list (string * value)).

(** ToBoolean: [undefined], [null], [false], [0] and the empty string are
    falsy; every object and array is truthy. *)
Definition truthy (v : value) : bool :=
  match v with
  | Undefined | Null => false
  | Bool b => b
  | Num n => negb (n =? 0)%Z
  | Str s => negb (s =? "")
  | Arr _ | Obj _ => true
  end.

(** [a || b] *)
Definition or (a b : value) : value := if truthy a then a else b.

Fixpoint lookup (k : string) (fields : list (string * value)) : value :=
  match fields with
  | [] => Undefined
  | (k', v) :: rest => if k' =? k then v else lookup k rest
  end.

(** [v.k] on a value that is neither [null] nor [undefined]. *)
Definition prop (v : value) (k : string) : value :=
  match v with
  | Obj fields => lookup k fields
  | Arr xs => if k =? "length" then Num (Z.of_nat (List.length xs)) else Undefined
  | Str s => if k =? "length" then Num (Z.of_nat (String.length s)) else Undefined
  | _ => Undefined
  end.

Definition nullish (v : value) : bool :=
  match v with Undefined | Null => true | _ => false end.

Definition type_name (v : value) : string :=
  match v with Null => "null" | _ => "undefined" end.

(** [v.k]: a TypeError when [v] is [null] or [undefined]. *)
Definition member (v : value) (k : string) : result value :=
  if nullish v
  then Throw ("Cannot read properties of " ++ type_name v ++ " (reading '" ++ k ++ "')")
  else Ok (prop v k).

(** [v?.k] *)
Definition opt_member (v : value) (k : string) : value :=
  if nullish v then Undefined else prop v k.

(** [v[0]] *)
Definition first (v : value) : result value :=
  match v with
  | Undefined | Null =>
      Throw ("Cannot read properties of " ++ type_name v ++ " (reading '0')")
  | Arr xs => Ok (List.hd Undefined xs)
  | Str (String c _) => Ok (Str (String c ""))
  | Obj fields => Ok (lookup "0" fields)
  | _ => Ok Undefined
  end.

Definition Z_to_string (n : Z) : string := NilEmpty.string_of_int (Z.to_int n).

(** ToString, as a template literal or [new Error(v)] applies it. An array
    prints its elements separated by commas, [null] and [undefined] elements
    as nothing. *)
Fixpoint to_string (v : value) : string :=
  match v with
  | Undefined => "undefined"
  | Null => "null"
  | Bool true => "true"
  | Bool false => "false"
  | Num n => Z_to_string n
  | Str s => s
  | Arr xs =>
      (fix join (l : list value) : string :=
         match l with
         | [] => ""
         | x :: r =>
             let e := if nullish x then "" else to_string x in
             match r with
             | [] => e
             | _ :: _ => e ++ "," ++ join r
             end
         end) xs
  | Obj _ => "[object Object]"
  end.

(** ToNumber on the primitives that are not strings; [None] is NaN. *)
Definition to_number (v : value) : option Z :=
  match v with
  | Null => Some 0%Z
  | Bool b => Some (if b then 1 else 0)%Z
  | Num n => Some n
  | _ => None
  end.

(** The text of [${a + b}]: concatenation as soon as one operand is a string
    or an object, the numeric sum otherwise. *)
Definition add_text (a b : value) : string :=
  match a, b with
  | (Str _ | Arr _ | Obj _), _ | _, (Str _ | Arr _ | Obj _) =>
      to_string a ++ to_string b
  | _, _ =>
      match to_number a, to_number b with
      | Some x, Some y => Z_to_string (x + y)
      | _, _ => "NaN"
      end
  end.

(** What [JSON.stringify] keeps of an object literal: properties whose value
    is [undefined] are dropped. *)
Definition stringify_fields (fields : list (string * value)) : value :=
  Obj (filter (fun kv => match snd kv with Undefined => false | _ => true end) fields).

End Js.

(** ** The network oracle *)

Module Net.

(** What a [fetch] call and the later [response.json()] come to: the call
    rejects, or a response with a status arrives whose body either parses as
    JSON or makes [json()] reject with a message. *)
Inductive FetchResult : Type :=
| NetworkError (message : string)
| Response (status : Z) (json : Eff.result Js.value).

(** [response.ok] *)
Definition ok (status : Z) : bool := ((200 <=? status) && (status <=? 299))%Z.

Record Request : Type := mkRequest {
  url : string;
  method : string;
  headers : list (string * Js.value);
  body : Js.value
}.

End Net.

(** ** The relay: [app.post('/api/claude', ...)] of server.js *)

Module Relay.
Import Eff Eff.Notations Js Net.
Local Open Scope eff_scope.

(** The reply sent with [res.status(s).json(v)]; [res.json(v)] alone sends
    status 200. Every path of the handler sends exactly one reply, which is
    the value the embedding returns. *)
Record HttpResponse : Type := mkResponse { status : Z; json : value }.

(** The handler's only effect besides its reply: the upstream requests it
    performed, oldest first. *)
Definition World : Type := list Request.

Definition default_model : string := "claude-sonnet-4-20250514".
Definition default_max_tokens : Z := 4096.

(** [const { apiKey, messages, system, model, max_tokens } = req.body;] *)
Definition destructure_message (req_body : value) : string :=
  "Cannot destructure property 'apiKey' of 'req.body' as it is "
  ++ type_name req_body ++ ".".

Definition destructure (req_body : value) : result value :=
  if nullish req_body then Throw (destructure_message req_body) else Ok req_body.

(** The arguments of [fetch('https://api.anthropic.com/v1/messages', ...)]. *)
Definition upstream_request (b : value) : Request :=
  {| url := "https://api.anthropic.com/v1/messages";
     method := "POST";
     headers := [("Content-Type", Str "application/json");
                 ("x-api-key", prop b "apiKey");
                 ("anthropic-version", Str "2023-06-01")];
     body := stringify_fields
               [("model", or (prop b "model") (Str default_model));
                ("max_tokens", or (prop b "max_tokens") (Num default_max_tokens));
                ("system", prop b "system");
                ("messages", prop b "messages")] |}.

Definition missing_key_body : value := Obj [("error", Str "API key is required")].

Definition server_error (message : string) : value :=
  Obj [("error", Obj [("message", Str message); ("type", Str "server_error")])].

Section Handler.
Variable upstream : Request -> FetchResult.

(** [await fetch(...)]: rejects on a network failure, otherwise yields the
    response; the request is recorded either way. *)
Definition fetch (rq : Request) : M World (Z * result value) :=
  fun trace =>
    match upstream rq with
    | NetworkError m => (Throw m, (trace ++ [rq])%list)
    | Response st js => (Ok (st, js), (trace ++ [rq])%list)
    end.

(** The body of the [try] block, lines 14 to 46. *)
Definition post_api_claude_try (req_body : value) : M World HttpResponse :=
  b <- lift (destructure req_body) ;;
  if negb (truthy (prop b "apiKey")) then
    ret (mkResponse 400 missing_key_body)
  else
    response <- fetch (upstream_request b) ;;
    let (response_status, response_json) := response in
    if negb (ok response_status) then
      errorData <- lift response_json ;;
      ret (mkResponse response_status errorData)
    else
      data <- lift response_json ;;
      (* data.usage?.input_tokens + data.usage?.output_tokens, for the console *)
      _ <- lift (member data "usage") ;;
      ret (mkResponse 200 data).

(** The handler: the [try] block and its [catch], lines 12 to 56. *)
Definition post_api_claude (req_body : value) : M World HttpResponse :=
  try_catch (post_api_claude_try req_body)
            (fun message => ret (mkResponse 500 (server_error message))).
End Handler.

End Relay.

(** ** String methods used by the controller *)

Module JsString.

Definition nl : string := String "010"%char "".
Definition dq : string := String "034"%char "".

(** [s] between double quotes. *)
Definition quoted (s : string) : string := dq ++ s ++ dq.

(** White space as [String.prototype.trim] sees it, among single bytes:
    tab, line feed, vertical tab, form feed, carriage return, space. *)
Definition is_space (c : ascii) : bool :=
  let n := nat_of_ascii c in
  (((9 <=? n) && (n <=? 13)) || (n =? 32))%nat.

Fixpoint whitespace_only (s : string) : bool :=
  match s with
  | EmptyString => true
  | String c t => is_space c && whitespace_only t
  end.

Fixpoint trim_start (s : string) : string :=
  match s with
  | EmptyString => EmptyString
  | String c t => if is_space c then trim_start t else s
  end.

Fixpoint trim_end (s : string) : string :=
  match s with
  | EmptyString => EmptyString
  | String c t =>
      match trim_end t with
      | EmptyString => if is_space c then EmptyString else String c EmptyString
      | r => String c r
      end
  end.

(** [s.trim()] *)
Definition trim (s : string) : string := trim_end (trim_start s).

(** [s.split(sep)] for a one-character separator: never the empty list. *)
Fixpoint split (sep : ascii) (s : string) : list string :=
  match s with
  | EmptyString => [EmptyString]
  | String c t =>
      if Ascii.eqb c sep then EmptyString :: split sep t
      else match split sep t with
           | [] => [String c EmptyString]
           | h :: r => String c h :: r
           end
  end.

(** [parts.join(sep)] *)
Fixpoint join (sep : string) (parts : list string) : string :=
  match parts with
  | [] => ""
  | [p] => p
  | p :: rest => p ++ sep ++ join sep rest
  end.

(** [.filter(Boolean)] on strings: the empty string is the falsy one. *)
Definition filter_Boolean (parts : list string) : list string :=
  filter (fun p => negb (p =? "")) parts.

End JsString.

(** ** The two regular expressions of the controller

    [/\[[\s\S]*\]/] and [/\{[\s\S]*\}/]: an opening character, any characters
    (greedy), a closing character. [String.prototype.match] tries the start
    positions from the left; at a start position the greedy star first takes
    everything and gives back characters until the closing one matches, so the
    match runs to the last closing character. *)

Module Regex.

(** The longest prefix of [s] that ends with [close]. *)
Fixpoint greedy_to (close : ascii) (s : string) : option string :=
  match s with
  | EmptyString => None
  | String x t =>
      match greedy_to close t with
      | Some m => Some (String x m)
      | None => if Ascii.eqb x close then Some (String x EmptyString) else None
      end
  end.

(** [s.match(/\open[\s\S]*\close/)]: the matched text ([jsonMatch[0]]) or
    [None] for [null]. *)
Fixpoint delimited (open close : ascii) (s : string) : option string :=
  match s with
  | EmptyString => None
  | String x t =>
      if Ascii.eqb x open then
        match greedy_to close t with
        | Some m => Some (String x m)
        | None => delimited open close t
        end
      else delimited open close t
  end.

(** Does [c] occur in [s]? *)
Fixpoint has_char (c : ascii) (s : string) : bool :=
  match s with
  | EmptyString => false
  | String x t => Ascii.eqb x c || has_char c t
  end.


Definition bracket_span : string -> option string := delimited "["%char "]"%char.
Definition brace_span : string -> option string := delimited "{"%char "}"%char.

End Regex.

(** ** A reference JSON parser

    [JSON.parse] for the documents whose numbers are integer literals and whose
    strings hold single-byte characters; a fraction, an exponent or an escape
    above U+007F is outside this instance and reported as an error. The
    controller never depends on it: it is used to run concrete replies. *)

Module RefJSON.
Import Eff Js.

Definition is_ws (c : ascii) : bool :=
  let n := nat_of_ascii c in
  ((n =? 32) || (n =? 9) || (n =? 10) || (n =? 13))%nat.

Fixpoint skip_ws (s : string) : string :=
  match s with
  | String c t => if is_ws c then skip_ws t else s
  | EmptyString => EmptyString
  end.

Definition is_digit (c : ascii) : bool :=
  let n := nat_of_ascii c in ((48 <=? n) && (n <=? 57))%nat.

Definition digit_value (c : ascii) : Z := Z.of_nat (nat_of_ascii c - 48).

(** Digits read so far folded into [acc]; the rest of the input. *)
Fixpoint digits (acc : Z) (s : string) : Z * string :=
  match s with
  | String c t => if is_digit c then digits (10 * acc + digit_value c)%Z t else (acc, s)
  | EmptyString => (acc, s)
  end.

Definition starts_fraction_or_exponent (s : string) : bool :=
  match s with
  | String c _ => Ascii.eqb c "."%char || Ascii.eqb c "e"%char || Ascii.eqb c "E"%char
  | EmptyString => false
  end.

(** An unsigned integer literal: [0], or a non-zero digit and more digits. *)
Definition natural (s : string) : option (Z * string) :=
  match s with
  | String c t =>
      if Ascii.eqb c "0"%char then
        if starts_fraction_or_exponent t then None else Some (0%Z, t)
      else if is_digit c then
        let (n, r) := digits (digit_value c) t in
        if starts_fraction_or_exponent r then None else Some (n, r)
      else None
  | EmptyString => None
  end.

Definition hex_value (c : ascii) : option nat :=
  let n := nat_of_ascii c in
  if ((48 <=? n) && (n <=? 57))%nat then Some (n - 48)
  else if ((65 <=? n) && (n <=? 70))%nat then Some (n - 55)
  else if ((97 <=? n) && (n <=? 102))%nat then Some (n - 87)
  else None.

Definition escape (c : ascii) : option ascii :=
  if Ascii.eqb c "034"%char then Some "034"%char
  else if Ascii.eqb c "\"%char then Some "\"%char
  else if Ascii.eqb c "/"%char then Some "/"%char
  else if Ascii.eqb c "b"%char then Some "008"%char
  else if Ascii.eqb c "f"%char then Some "012"%char
  else if Ascii.eqb c "n"%char then Some "010"%char
  else if Ascii.eqb c "r"%char then Some "013"%char
  else if Ascii.eqb c "t"%char then Some "009"%char
  else None.

(** The characters of a string literal after its opening quote, up to and
    without the closing quote; the rest of the input. *)
Fixpoint string_body (s : string) : option (string * string) :=
  match s with
  | EmptyString => None
  | String c t =>
      if Ascii.eqb c "034"%char then Some (EmptyString, t)
      else if Ascii.eqb c "\"%char then
        match t with
        | String e t' =>
            if Ascii.eqb e "u"%char then
              match t' with
              | String h1 (String h2 (String h3 (String h4 t''))) =>
                  match hex_value h1, hex_value h2, hex_value h3, hex_value h4 with
                  | Some 0, Some 0, Some a, Some b =>
                      if (a <? 8)%nat then
                        match string_body t'' with
                        | Some (body, r) => Some (String (ascii_of_nat (16 * a + b)) body, r)
                        | None => None
                        end
                      else None
                  | _, _, _, _ => None
                  end
              | _ => None
              end
            else
              match escape e, string_body t' with
              | Some x, Some (body, r) => Some (String x body, r)
              | _, _ => None
              end
        | EmptyString => None
        end
      else if (nat_of_ascii c <? 32)%nat then None
      else
        match string_body t with
        | Some (body, r) => Some (String c body, r)
        | None => None
        end
  end.

(** [s] without the prefix [p], when it starts with it. *)
Fixpoint strip_prefix (p s : string) : option string :=
  match p, s with
  | EmptyString, _ => Some s
  | String a p', String b s' => if Ascii.eqb a b then strip_prefix p' s' else None
  | String _ _, EmptyString => None
  end.

(** A later occurrence of a key replaces the value of the earlier one. *)
Fixpoint set_field (k : string) (v : value) (fields : list (string * value))
  : list (string * value) :=
  match fields with
  | [] => [(k, v)]
  | (k', v') :: rest => if k' =? k then (k, v) :: rest else (k', v') :: set_field k v rest
  end.

Fixpoint parse_value (fuel : nat) (s : string) : option (value * string) :=
  match fuel with
  | O => None
  | S fuel' =>
      match skip_ws s with
      | EmptyString => None
      | String c t as s' =>
          if Ascii.eqb c "["%char then
            match skip_ws t with
            | String "]"%char r => Some (Arr [], r)
            | _ => match parse_elements fuel' t with
                   | Some (xs, r) => Some (Arr xs, r)
                   | None => None
                   end
            end
          else if Ascii.eqb c "{"%char then
            match skip_ws t with
            | String "}"%char r => Some (Obj [], r)
            | _ => match parse_members fuel' [] t with
                   | Some (fields, r) => Some (Obj fields, r)
                   | None => None
                   end
            end
          else if Ascii.eqb c "034"%char then
            match string_body t with
            | Some (body, r) => Some (Str body, r)
            | None => None
            end
          else if Ascii.eqb c "-"%char then
            match natural t with
            | Some (n, r) => Some (Num (- n), r)
            | None => None
            end
          else if is_digit c then
            match natural s' with
            | Some (n, r) => Some (Num n, r)
            | None => None
            end
          else
            match strip_prefix "null" s', strip_prefix "true" s', strip_prefix "false" s' with
            | Some r, _, _ => Some (Null, r)
            | _, Some r, _ => Some (Bool true, r)
            | _, _, Some r => Some (Bool false, r)
            | None, None, None => None
            end
      end
  end
with parse_elements (fuel : nat) (s : string) : option (list value * string) :=
  match fuel with
  | O => None
  | S fuel' =>
      match parse_value fuel' s with
      | Some (v, r) =>
          match skip_ws r with
          | String "]"%char r' => Some ([v], r')
          | String ","%char r' =>
              match parse_elements fuel' r' with
              | Some (vs, r'') => Some (v :: vs, r'')
              | None => None
              end
          | _ => None
          end
      | None => None
      end
  end
with parse_members (fuel : nat) (acc : list (string * value)) (s : string)
  : option (list (string * value) * string) :=
  match fuel with
  | O => None
  | S fuel' =>
      match skip_ws s with
      | String "034"%char t =>
          match string_body t with
          | Some (k, r) =>
              match skip_ws r with
              | String ":"%char r' =>
                  match parse_value fuel' r' with
                  | Some (v, r'') =>
                      let acc' := set_field k v acc in
                      match skip_ws r'' with
                      | String "}"%char r3 => Some (acc', r3)
                      | String ","%char r3 => parse_members fuel' acc' r3
                      | _ => None
                      end
                  | None => None
                  end
              | _ => None
              end
          | None => None
          end
      | _ => None
      end
  end.

(** [JSON.parse(s)]: one value, white space around it, nothing else. *)
Definition parse (s : string) : result value :=
  match parse_value (2 * String.length s + 2) s with
  | Some (v, r) =>
      match skip_ws r with
      | EmptyString => Ok v
      | String _ _ => Throw "Unexpected non-whitespace character after JSON"
      end
  | None => Throw "Unexpected token in JSON"
  end.

End RefJSON.

(** ** The workflow controller: src/App.jsx *)

Module App.
Import Eff Eff.Notations Js Net JsString.
Local Open Scope eff_scope.

Definition SYSTEM_PROMPT : string :=
"From now on, act as my expert assistant with access to all your reasoning and knowledge. Always provide:

⚠️ DISCLAIMER: I am an AI agent and not a medical professional. The information I provide should NOT be taken as medical advice. I am only providing information available on the public internet learned by an LLM. I am not responsible for any of the content provided. Always consult with qualified healthcare professionals for medical advice.

1. A clear, direct answer to your request.
2. A step-by-step explanation of how I got there.
3. Alternative perspectives or solutions you might not have thought of.
4. A practical summary or action plan you can apply immediately.

I never give vague answers. If the question is broad, I break it into parts. I act like a professional in the relevant domain and push my reasoning to 100% of my capacity.".

Definition API_ENDPOINT : string := "/api/claude".

(** The instruction of each staged call, as written in the handlers. *)
Definition pdf_prompt : string :=
  "Extract all medical information, test results, diagnoses, and relevant data from this document. Present it in a clear, structured format.".

Definition symptoms_prompt : string :=
  "Analyze this medical data and extract all symptoms, abnormal findings, and concerning indicators. Return ONLY a JSON array of symptoms with this exact format: [{"
  ++ quoted "symptom" ++ ": " ++ quoted "symptom name" ++ ", "
  ++ quoted "severity" ++ ": " ++ quoted "mild|moderate|severe" ++ ", "
  ++ quoted "source" ++ ": " ++ quoted "where it was found" ++ "}]. No other text.".

Definition causes_prompt : string :=
  "Analyze these symptoms and provide potential medical causes/conditions. Format as JSON: {"
  ++ quoted "causes" ++ ": [{"
  ++ quoted "condition" ++ ": " ++ quoted "name" ++ ", "
  ++ quoted "probability" ++ ": " ++ quoted "high|medium|low" ++ ", "
  ++ quoted "explanation" ++ ": " ++ quoted "why" ++ ", "
  ++ quoted "urgency" ++ ": " ++ quoted "immediate|soon|routine" ++ "}]}".

(** The values of [activeTab]. *)
Inductive Tab : Type :=
| upload_tab | symptoms_tab | causes_tab | solutions_tab | settings_tab | debug_tab.

(** The [type] of a debug-log entry. *)
Inductive LogType : Type := info | success | warning | error.

Record LogEntry : Type := mkLog { message : string; type : LogType }.

(** An element of the symptom array in the format the prompt asks for. The
    view hands such an element to [toggleSymptom]; an object is truthy, so
    [if (exists)] tests whether [find] found one. *)
Record Symptom : Type := mkSymptom {
  symptom : string;
  severity : string;
  source : string
}.

(** The [useState] cells the staged handlers read or write. [pdfText] holds
    whatever the ingestion call returned; [potentialCauses] and [solutions]
    start as [null]. *)
Record State : Type := mkState {
  activeTab : Tab;
  apiKey : string;
  pdfText : value;
  manualText : string;
  loading : bool;
  debugLogs : list LogEntry;
  extractedSymptoms : value;
  confirmedSymptoms : list Symptom;
  additionalSymptoms : string;
  potentialCauses : value;
  solutions : value
}.

Definition initial_state : State :=
  {| activeTab := upload_tab; apiKey := ""; pdfText := Str ""; manualText := "";
     loading := false; debugLogs := []; extractedSymptoms := Arr [];
     confirmedSymptoms := []; additionalSymptoms := "";
     potentialCauses := Null; solutions := Null |}.

(** The state, the messages shown with [alert], and the requests sent to the
    relay, oldest first. *)
Record World : Type := mkWorld {
  state : State;
  alerts : list string;
  requests : list Request
}.

Definition with_activeTab (t : Tab) (s : State) : State :=
  mkState t (apiKey s) (pdfText s) (manualText s) (loading s) (debugLogs s)
          (extractedSymptoms s) (confirmedSymptoms s) (additionalSymptoms s)
          (potentialCauses s) (solutions s).

Definition with_pdfText (v : value) (s : State) : State :=
  mkState (activeTab s) (apiKey s) v (manualText s) (loading s) (debugLogs s)
          (extractedSymptoms s) (confirmedSymptoms s) (additionalSymptoms s)
          (potentialCauses s) (solutions s).

Definition with_loading (b : bool) (s : State) : State :=
  mkState (activeTab s) (apiKey s) (pdfText s) (manualText s) b (debugLogs s)
          (extractedSymptoms s) (confirmedSymptoms s) (additionalSymptoms s)
          (potentialCauses s) (solutions s).

Definition with_debugLogs (l : list LogEntry) (s : State) : State :=
  mkState (activeTab s) (apiKey s) (pdfText s) (manualText s) (loading s) l
          (extractedSymptoms s) (confirmedSymptoms s) (additionalSymptoms s)
          (potentialCauses s) (solutions s).

Definition with_extractedSymptoms (v : value) (s : State) : State :=
  mkState (activeTab s) (apiKey s) (pdfText s) (manualText s) (loading s) (debugLogs s)
          v (confirmedSymptoms s) (additionalSymptoms s)
          (potentialCauses s) (solutions s).

Definition with_confirmedSymptoms (l : list Symptom) (s : State) : State :=
  mkState (activeTab s) (apiKey s) (pdfText s) (manualText s) (loading s) (debugLogs s)
          (extractedSymptoms s) l (additionalSymptoms s)
          (potentialCauses s) (solutions s).

Definition with_potentialCauses (v : value) (s : State) : State :=
  mkState (activeTab s) (apiKey s) (pdfText s) (manualText s) (loading s) (debugLogs s)
          (extractedSymptoms s) (confirmedSymptoms s) (additionalSymptoms s)
          v (solutions s).

Definition setState (f : State -> State) : M World unit :=
  modify (fun w => mkWorld (f (state w)) (alerts w) (requests w)).

Definition setActiveTab (t : Tab) : M World unit := setState (with_activeTab t).
Definition setPdfText (v : value) : M World unit := setState (with_pdfText v).
Definition setLoading (b : bool) : M World unit := setState (with_loading b).
Definition setExtractedSymptoms (v : value) : M World unit :=
  setState (with_extractedSymptoms v).
Definition setConfirmedSymptoms (f : list Symptom -> list Symptom) : M World unit :=
  setState (fun s => with_confirmedSymptoms (f (confirmedSymptoms s)) s).
Definition setPotentialCauses (v : value) : M World unit :=
  setState (with_potentialCauses v).

(** [alert(text)] *)
Definition alert (text : string) : M World unit :=
  modify (fun w => mkWorld (state w) (alerts w ++ [text]) (requests w)).

(** [addDebugLog(message, type)], lines 50 to 53. *)
Definition addDebugLog (msg : string) (ty : LogType) : M World unit :=
  setState (fun s => with_debugLogs (debugLogs s ++ [mkLog msg ty]) s).

(** [s.trim()] on a value: a TypeError unless [s] is a string. *)
Definition trim_method (name : string) (v : value) : result string :=
  match v with
  | Str s => Ok (trim s)
  | Undefined | Null =>
      Throw ("Cannot read properties of " ++ type_name v ++ " (reading 'trim')")
  | _ => Throw (name ++ ".trim is not a function")
  end.

(** [response.match(re)] on a value, for the two expressions of [Regex]. *)
Definition match_method (re : string -> option string) (v : value)
  : result (option string) :=
  match v with
  | Str s => Ok (re s)
  | Undefined | Null =>
      Throw ("Cannot read properties of " ++ type_name v ++ " (reading 'match')")
  | _ => Throw "response.match is not a function"
  end.

(** The request [callClaude] sends to the relay, lines 73 to 88. *)
Definition relay_request (key content : string) : Request :=
  {| url := API_ENDPOINT;
     method := "POST";
     headers := [("Content-Type", Str "application/json")];
     body := stringify_fields
               [("apiKey", Str key);
                ("model", Str "claude-sonnet-4-20250514");
                ("max_tokens", Num 4096);
                ("system", Str SYSTEM_PROMPT);
                ("messages", Arr [Obj [("role", Str "user"); ("content", Str content)]])] |}.

(** [data.content[0].text] *)
Definition content_text (data : value) : result value :=
  match member data "content" with
  | Ok content =>
      match first content with
      | Ok block => member block "text"
      | Throw m => Throw m
      end
  | Throw m => Throw m
  end.

Section Controller.
(** What the relay answers to a request. *)
Variable net : Request -> FetchResult.
(** [JSON.parse] *)
Variable JSON_parse : string -> result value.

Definition fetch (rq : Request) : M World (Z * result value) :=
  fun w =>
    let w' := mkWorld (state w) (alerts w) (requests w ++ [rq]) in
    match net rq with
    | NetworkError m => (Throw m, w')
    | Response st js => (Ok (st, js), w')
    end.

(** Lines 64 to 104. *)
Definition callClaude (prompt context : string) : M World value :=
  key <- gets (fun w => apiKey (state w)) ;;
  if key =? "" then
    addDebugLog "Error: No API Key configured" error ;;
    throw "Please configure your Claude API key first"
  else
    addDebugLog "Making API call via proxy..." info ;;
    try_catch
      (response <- fetch (relay_request key
                            (if context =? "" then prompt
                             else context ++ nl ++ nl ++ prompt)) ;;
       let (response_status, response_json) := response in
       if negb (ok response_status) then
         err <- lift response_json ;;
         inner <- lift (member err "error") ;;
         let msg := opt_member inner "message" in
         addDebugLog ("API Error: " ++ to_string (or msg (Str "Unknown error"))) error ;;
         throw (to_string (or msg (Str "API request failed")))
       else
         data <- lift response_json ;;
         usage <- lift (member data "usage") ;;
         addDebugLog ("API call successful. Tokens used: "
                      ++ add_text (opt_member usage "input_tokens")
                                  (opt_member usage "output_tokens")) success ;;
         lift (content_text data))
      (fun m => addDebugLog ("Exception: " ++ m) error ;; throw m).

(** What the file picker hands over: the MIME type of the file and what
    [FileReader.readAsDataURL] comes to ([onload] with the data URL, or
    [onerror]). *)
Record File : Type := mkFile { file_type : string; dataURL : option string }.

(** Lines 106 to 129. *)
Definition extractTextFromPDF (file : File) : M World value :=
  addDebugLog "Extracting text from PDF..." info ;;
  match dataURL file with
  | Some result =>
      try_catch
        (part <- match nth_error (split ","%char result) 1 with
                 | Some p => ret p
                 | None => throw "Cannot read properties of undefined (reading 'substring')"
                 end ;;
         text <- callClaude pdf_prompt
                   ("PDF Content (base64): " ++ substring 0 1000 part ++ "...") ;;
         addDebugLog "Text extracted from PDF" success ;;
         ret text)
        (fun m => addDebugLog "Failed to extract text from PDF" error ;; throw m)
  | None =>
      addDebugLog "File reading error" error ;;
      throw "Failed to read file"
  end.

(** Lines 131 to 151; [None] is an event without a file. *)
Definition handleFileUpload (file : option File) : M World unit :=
  match file with
  | None => ret tt
  | Some f =>
      if negb (file_type f =? "application/pdf") then
        addDebugLog "Invalid file type - PDF required" error ;;
        alert "Please upload a PDF file"
      else
        setLoading true ;;
        try_finally
          (try_catch
             (text <- extractTextFromPDF f ;;
              setPdfText text ;;
              setActiveTab symptoms_tab)
             (fun m => alert ("Failed to process PDF: " ++ m)))
          (setLoading false)
  end.

(** Lines 153 to 182. *)
Definition analyzeSymptoms : M World unit :=
  pdf <- gets (fun w => pdfText (state w)) ;;
  manual <- gets (fun w => manualText (state w)) ;;
  let medicalData := or pdf (Str manual) in
  trimmed <- lift (trim_method "medicalData" medicalData) ;;
  if trimmed =? "" then
    alert "Please provide medical data first"
  else
    setLoading true ;;
    addDebugLog "Analyzing medical data for symptoms..." info ;;
    try_finally
      (try_catch
         (response <- callClaude symptoms_prompt
                        ("Medical Data:" ++ nl ++ to_string medicalData) ;;
          jsonMatch <- lift (match_method Regex.bracket_span response) ;;
          match jsonMatch with
          | Some span =>
              symptoms <- lift (JSON_parse span) ;;
              setExtractedSymptoms symptoms ;;
              len <- lift (member symptoms "length") ;;
              addDebugLog ("Extracted " ++ to_string len ++ " symptoms") success
          | None => throw "Could not parse symptoms from response"
          end)
         (fun m => alert ("Failed to analyze symptoms: " ++ m)))
      (setLoading false).

(** The state update of [toggleSymptom], lines 185 to 192. *)
Definition toggle (s : Symptom) (prev : list Symptom) : list Symptom :=
  match find (fun x => symptom x =? symptom s) prev with
  | Some _ => filter (fun x => negb (symptom x =? symptom s)) prev
  | None => prev ++ [s]
  end.

(** Lines 184 to 193. *)
Definition toggleSymptom (s : Symptom) : M World unit :=
  setConfirmedSymptoms (toggle s).

(** How the symptoms view decides whether a symptom is shown as confirmed,
    lines 378 and 397. *)
Definition is_confirmed (s : Symptom) (confirmed : list Symptom) : bool :=
  match find (fun x => symptom x =? symptom s) confirmed with
  | Some _ => true
  | None => false
  end.

(** Lines 195 to 227. *)
Definition analyzeCauses : M World unit :=
  confirmed <- gets (fun w => confirmedSymptoms (state w)) ;;
  additional <- gets (fun w => additionalSymptoms (state w)) ;;
  if (List.length confirmed =? 0)%nat && (trim additional =? "") then
    alert "Please confirm at least one symptom or add additional symptoms"
  else
    setLoading true ;;
    addDebugLog "Analyzing potential causes..." info ;;
    let allSymptoms :=
      (map symptom confirmed
         ++ filter_Boolean (map trim (split ","%char additional)))%list in
    try_finally
      (try_catch
         (response <- callClaude causes_prompt
                        ("Symptoms: " ++ join ", " allSymptoms) ;;
          jsonMatch <- lift (match_method Regex.brace_span response) ;;
          match jsonMatch with
          | Some span =>
              data <- lift (JSON_parse span) ;;
              setPotentialCauses data ;;
              causes <- lift (member data "causes") ;;
              addDebugLog ("Identified "
                           ++ to_string (or (opt_member causes "length") (Num 0))
                           ++ " potential causes") success ;;
              setActiveTab causes_tab
          | None => ret tt
          end)
         (fun m => alert ("Failed to analyze causes: " ++ m)))
      (setLoading false).
End Controller.




(** The active tab, which [setActiveTab] alone writes. *)
Definition tab_of (w : World) : Tab := activeTab (state w).

(** The computation [c] leaves the observation [f] of the world as it is,
    on every exit. *)
Definition keeps {A X : Type} (f : World -> X) (c : M World A) : Prop :=
  forall w, f (snd (c w)) = f w.

End App.

(** ** The controller in front of the relay *)

Module System.
Import Eff Js Net.

(** The network as the controller sees it when its requests go to the relay
    of server.js, itself in front of [upstream]: [express.json()] hands the
    handler the object the controller serialised, and the handler's reply is
    the response. *)
Definition via_relay (upstream : Request -> FetchResult) : Request -> FetchResult :=
  fun rq =>
    match fst (Relay.post_api_claude upstream (body rq) []) with
    | Ok reply => Response (Relay.status reply) (Ok (Relay.json reply))
    | Throw m => NetworkError m
    end.

End System.

(** ** Concrete requests, upstream behaviours and controller states *)

Module Samples.
Import Eff Js Net JsString.

Definition hello : value :=
  Arr [Obj [("role", Str "user"); ("content", Str "hello")]].

(** Relay request bodies. *)
Definition body_without_key : value := Obj [("messages", hello)].
Definition body_empty_key : value := Obj [("apiKey", Str ""); ("messages", hello)].
Definition body_full : value :=
  Obj [("apiKey", Str "sk-test"); ("messages", hello); ("system", Str "be brief");
       ("model", Str "claude-3-haiku"); ("max_tokens", Num 256)].

(** An upstream reply in the shape the controller reads. *)
Definition reply_data (text : string) : value :=
  Obj [("content", Arr [Obj [("type", Str "text"); ("text", Str text)]]);
       ("usage", Obj [("input_tokens", Num 12); ("output_tokens", Num 30)])].

Definition invalid_key_error : value :=
  Obj [("type", Str "error");
       ("error", Obj [("type", Str "authentication_error");
                      ("message", Str "invalid x-api-key")])].

(** Upstream behaviours: a 401 with a JSON error, a 502 whose body is an HTML
    page, an unreachable host, a successful reply. *)
Definition upstream_unauthorized : Request -> FetchResult :=
  fun _ => Response 401 (Ok invalid_key_error).
Definition upstream_unreachable : Request -> FetchResult :=
  fun _ => NetworkError "fetch failed".
Definition upstream_replies (text : string) : Request -> FetchResult :=
  fun _ => Response 200 (Ok (reply_data text)).

(** The relay of server.js in front of an upstream that replies [text]. *)
Definition relay_to (text : string) : Request -> FetchResult :=
  System.via_relay (upstream_replies text).

(** Controller worlds. *)
Definition fever : App.Symptom := App.mkSymptom "Fever" "mild" "nurse notes".
Definition cough : App.Symptom := App.mkSymptom "Cough" "moderate" "nurse notes".

Definition world_of (s : App.State) : App.World := App.mkWorld s [] [].

(** A key is configured and text was pasted on the upload tab. *)
Definition pasted : App.State :=
  App.mkState App.upload_tab "sk-test" (Str "") "Hemoglobin: 8.2 g/dL (low)" false []
              (Arr []) [] "" Null Null.

(** On the symptoms tab with one confirmed symptom. *)
Definition one_confirmed : App.State :=
  App.mkState App.symptoms_tab "sk-test" (Str "") "Patient reports fever" false []
              (Arr []) [fever] "" Null Null.

(** On the symptoms tab, nothing confirmed, blanks in the free text. *)
Definition nothing_to_analyze : App.State :=
  App.mkState App.symptoms_tab "sk-test" (Str "") "Patient reports fever" false []
              (Arr []) [] "  " Null Null.

(** The reply of the spec's scenario, a reply with two bracketed spans, and
    a reply with neither brackets nor braces. *)
Definition hemoglobin_object : string :=
  "{" ++ quoted "symptom" ++ ":" ++ quoted "Low hemoglobin" ++ ","
  ++ quoted "severity" ++ ":" ++ quoted "moderate" ++ ","
  ++ quoted "source" ++ ":" ++ quoted "Hemoglobin: 8.2 g/dL" ++ "}".

Definition hemoglobin_reply : string := "[" ++ hemoglobin_object ++ "]".

Definition hemoglobin_symptoms : value :=
  Arr [Obj [("symptom", Str "Low hemoglobin"); ("severity", Str "moderate");
            ("source", Str "Hemoglobin: 8.2 g/dL")]].




Definition no_causes_reply : string := "Here: {" ++ quoted "causes" ++ ": []}".

Definition pdf_file : App.File :=
  App.mkFile "application/pdf" (Some "data:application/pdf;base64,JVBERi0x").

End Samples.

(** ** The solution lookup: [findSolutions] of src/App.jsx *)

Module Stage3.
Import Eff Eff.Notations Js Net JsString App.
Local Open Scope eff_scope.

Definition solutions_prompt : string :=
  "For these conditions, provide treatment approaches in Ayurvedic, Homeopathic, Allopathic, and Naturopathic medicine. Include reputable sources. Format as JSON: {"
  ++ quoted "solutions" ++ ": [{"
  ++ quoted "category" ++ ": " ++ quoted "Ayurvedic|Homeopathic|Allopathic|Naturopathic" ++ ", "
  ++ quoted "treatments" ++ ": [{"
  ++ quoted "name" ++ ": " ++ quoted "treatment" ++ ", "
  ++ quoted "description" ++ ": " ++ quoted "how it works" ++ ", "
  ++ quoted "source" ++ ": " ++ quoted "source name" ++ ", "
  ++ quoted "url" ++ ": " ++ quoted "URL" ++ ", "
  ++ quoted "recommendedQuestions" ++ ": [" ++ quoted "q1" ++ ", " ++ quoted "q2"
  ++ "]}]}]}".

Definition with_solutions (v : value) (s : State) : State :=
  mkState (activeTab s) (apiKey s) (pdfText s) (manualText s) (loading s) (debugLogs s)
          (extractedSymptoms s) (confirmedSymptoms s) (additionalSymptoms s)
          (potentialCauses s) v.

Definition setSolutions (v : value) : M World unit := setState (with_solutions v).

(** [xs.map(c => c.k)] on the elements of an array, left to right. *)
Fixpoint map_member (k : string) (xs : list value) : result (list value) :=
  match xs with
  | [] => Ok []
  | x :: rest =>
      match member x k with
      | Ok v =>
          match map_member k rest with
          | Ok vs => Ok (v :: vs)
          | Throw m => Throw m
          end
      | Throw m => Throw m
      end
  end.

(** [v.map(c => c.k)] on a value: a TypeError unless [v] is an array. *)
Definition map_method (name : string) (v : value) (k : string) : result (list value) :=
  match v with
  | Arr xs => map_member k xs
  | Undefined | Null =>
      Throw ("Cannot read properties of " ++ type_name v ++ " (reading 'map')")
  | _ => Throw (name ++ ".map is not a function")
  end.

(** [xs.join(sep)] on an array of values: [null] and [undefined] elements
    print as nothing. *)
Definition join_values (sep : string) (xs : list value) : string :=
  join sep (map (fun x => if nullish x then "" else to_string x) xs).

Section Handler.
(** What the relay answers to a request. *)
Variable net : Request -> FetchResult.
(** [JSON.parse] *)
Variable JSON_parse : string -> result value.

(** Lines 229 to 256. *)
Definition findSolutions : M World unit :=
  causes_state <- gets (fun w => potentialCauses (state w)) ;;
  if negb (truthy causes_state) then
    alert "Please analyze causes first"
  else
    setLoading true ;;
    addDebugLog "Searching for treatment solutions..." info ;;
    try_finally
      (try_catch
         (causes <- lift (member causes_state "causes") ;;
          conditions <- lift (map_method "potentialCauses.causes" causes "condition") ;;
          response <- callClaude net solutions_prompt
                        ("Conditions: " ++ join_values ", " conditions) ;;
          jsonMatch <- lift (match_method Regex.brace_span response) ;;
          match jsonMatch with
          | Some span =>
              data <- lift (JSON_parse span) ;;
              setSolutions data ;;
              found <- lift (member data "solutions") ;;
              addDebugLog ("Found solutions across "
                           ++ to_string (or (opt_member found "length") (Num 0))
                           ++ " categories") success ;;
              setActiveTab solutions_tab
          | None => ret tt
          end)
         (fun m => alert ("Failed to find solutions: " ++ m)))
      (setLoading false).
End Handler.

End Stage3.

(** ** The credential and the chat: the rest of the component state *)

Module Ui.
Import Eff Eff.Notations Js Net JsString.
Local Open Scope eff_scope.

(** A treatment as the solutions view hands it to [startChat]. *)
Record Source : Type := mkSource {
  name : string;
  description : string;
  url : string
}.

Inductive Role : Type := user | assistant.

Record ChatMessage : Type := mkMessage { role : Role; content : value }.

(** [chatMessages]: an object from treatment names to transcripts. Its keys
    are its own properties; a treatment named like a property of
    [Object.prototype] is outside the embedding. *)
Definition Sessions : Type := list (string * list ChatMessage).

(** [chatMessages[k]] *)
Fixpoint session (k : string) (m : Sessions) : option (list ChatMessage) :=
  match m with
  | [] => None
  | (k', v) :: rest => if k' =? k then Some v else session k rest
  end.

(** [{...m, [k]: v}] *)
Fixpoint set_session (k : string) (v : list ChatMessage) (m : Sessions) : Sessions :=
  match m with
  | [] => [(k, v)]
  | (k', v') :: rest =>
      if k' =? k then (k, v) :: rest else (k', v') :: set_session k v rest
  end.

(** [m[k] || []] *)
Definition session_or_empty (k : string) (m : Sessions) : list ChatMessage :=
  match session k m with
  | Some v => v
  | None => []
  end.

(** The cells of [App.World], the remaining [useState] cells the handlers
    below use, and the [claude_api_key] item of the browser's local storage. *)
Record World : Type := mkWorld {
  app : App.World;
  tempApiKey : string;
  showApiKeyInput : bool;
  localStorage : option string;
  activeChatSource : option Source;
  chatMessages : Sessions;
  chatInput : string
}.

Definition initial (storage : option string) : World :=
  mkWorld (App.mkWorld App.initial_state [] []) "" false storage None [] "".

Definition with_app (a : App.World) (u : World) : World :=
  mkWorld a (tempApiKey u) (showApiKeyInput u) (localStorage u)
          (activeChatSource u) (chatMessages u) (chatInput u).

(** A computation on the cells of [App.World], run inside the larger state. *)
Definition in_app {A : Type} (c : M App.World A) : M World A :=
  fun u => let (r, a) := c (app u) in (r, with_app a u).






Definition setChatMessages (f : Sessions -> Sessions) : M World unit :=
  modify (fun u => mkWorld (app u) (tempApiKey u) (showApiKeyInput u) (localStorage u)
                           (activeChatSource u) (f (chatMessages u)) (chatInput u)).

Definition setChatInput (text : string) : M World unit :=
  modify (fun u => mkWorld (app u) (tempApiKey u) (showApiKeyInput u) (localStorage u)
                           (activeChatSource u) (chatMessages u) text).




(** [prev => ({...prev, [k]: [...(prev[k] || []), msg]})] *)
Definition append_message (k : string) (msg : ChatMessage) (prev : Sessions) : Sessions :=
  set_session k (session_or_empty k prev ++ [msg]) prev.

Section Chat.
(** What the relay answers to a request. *)
Variable net : Request -> FetchResult.

(** Lines 268 to 302. *)
Definition sendChatMessage : M World unit :=
  input <- gets chatInput ;;
  active <- gets activeChatSource ;;
  match active with
  | None => ret tt
  | Some src =>
      if trim input =? "" then ret tt
      else
        let userMessage := input in
        setChatInput "" ;;
        setChatMessages (append_message (name src) (mkMessage user (Str userMessage))) ;;
        in_app (App.addDebugLog ("Chat query sent for " ++ name src) App.info) ;;
        try_catch
          (response <- in_app (App.callClaude net userMessage
                                 ("Source: " ++ name src ++ nl
                                  ++ "Description: " ++ description src ++ nl
                                  ++ "URL: " ++ url src)) ;;
           setChatMessages (append_message (name src) (mkMessage assistant response)) ;;
           in_app (App.addDebugLog "Chat response received" App.success))
          (fun m => in_app (App.alert ("Chat failed: " ++ m)))
  end.
End Chat.

End Ui.

(** ** Worlds along a run, and what the debug tab counts *)

Module Steps.
Import Eff Js Net JsString App.

(** The world after [addDebugLog(msg, ty)]. *)
Definition logged_entry (msg : string) (ty : LogType) (w : World) : World :=
  mkWorld (with_debugLogs (debugLogs (state w) ++ [mkLog msg ty]) (state w))
          (alerts w) (requests w).

(** The world after a request went out. *)
Definition sent (rq : Request) (w : World) : World :=
  mkWorld (state w) (alerts w) (requests w ++ [rq]).

(** The world after [alert(text)]. *)
Definition alerted (text : string) (w : World) : World :=
  mkWorld (state w) (alerts w ++ [text]) (requests w).

(** The message content [callClaude] builds from its two arguments, line 85. *)
Definition claude_content (prompt context : string) : string :=
  if context =? "" then prompt else context ++ nl ++ nl ++ prompt.

(** The symptom names [analyzeCauses] sends, lines 204 to 207. *)
Definition allSymptoms (s : State) : list string :=
  (map symptom (confirmedSymptoms s)
     ++ filter_Boolean (map trim (split ","%char (additionalSymptoms s))))%list.


(** [l1] is an initial segment of [l2]. *)
Definition extends {A : Type} (l1 l2 : list A) : Prop := exists more, l2 = (l1 ++ more)%list.

(** From [w] to [w'] the debug log, the alerts and the requests only grew. *)
Definition grown (w w' : World) : Prop :=
  extends (debugLogs (state w)) (debugLogs (state w'))
  /\ extends (alerts w) (alerts w')
  /\ extends (requests w) (requests w').

(** Along [c], on every exit, the world moves along the relation [R]. *)
Definition respects {A : Type} (R : World -> World -> Prop) (c : M World A) : Prop :=
  forall w, R w (snd (c w)).

(** The computation never ends with an exception. *)
Definition never_throws {A : Type} (c : M World A) : Prop :=
  forall w, exists a, fst (c w) = Ok a.

(** The computation does not raise the busy flag for good: started with the
    flag down, it ends with the flag down. *)
Definition releases_busy_flag {A : Type} (c : M World A) : Prop :=
  forall w, loading (state w) = false -> loading (state (snd (c w))) = false.

End Steps.

(** ** More concrete inputs *)

Module Samples2.
Import Eff Js Net JsString.

Definition no_key : App.State :=
  App.mkState App.symptoms_tab "" (Str "") "" false [] (Arr []) [Samples.fever] ""
              Null Null.





Definition no_solutions_reply : string := "{" ++ quoted "solutions" ++ ": []}".


Definition iron_again : Ui.Source :=
  Ui.mkSource "Iron supplements" "Another entry of the same name" "https://example.org/fe".




(** A relay whose reply text is a number, not a string. *)
Definition numeric_text_reply : Request -> FetchResult :=
  fun _ => Response 200 (Ok (Obj [("content", Arr [Obj [("text", Num 5)]]);
                                  ("usage", Obj [])])).

(** An upstream error body with a message. *)
Definition overloaded_error : value :=
  Obj [("type", Str "error");
       ("error", Obj [("type", Str "overloaded_error"); ("message", Str "Overloaded")])].

End Samples2.

(** ** The handlers in parts

    The worlds at which a handler's [try] block starts and ends, and what each
    handler does with the reply once [callClaude] returned. *)

Module Blocks.
Import Eff Eff.Notations Js Net JsString App Stage3.
Local Open Scope eff_scope.

(** The world after [setLoading(true)], and after [setLoading(false)]. *)
Definition busy (w : World) : World :=
  mkWorld (with_loading true (state w)) (alerts w) (requests w).

Definition idle (w : World) : World :=
  mkWorld (with_loading false (state w)) (alerts w) (requests w).

(** The guard of [analyzeCauses], line 196. *)
Definition nothing_to_analyze (s : State) : bool :=
  (List.length (confirmedSymptoms s) =? 0)%nat && (trim (additionalSymptoms s) =? "").

(** Lines 169 to 176. *)
Definition symptoms_reply_handler (JSON_parse : string -> result value)
           (response : value) : M World unit :=
  jsonMatch <- lift (match_method Regex.bracket_span response) ;;
  match jsonMatch with
  | Some span =>
      symptoms <- lift (JSON_parse span) ;;
      setExtractedSymptoms symptoms ;;
      len <- lift (member symptoms "length") ;;
      addDebugLog ("Extracted " ++ to_string len ++ " symptoms") success
  | None => throw "Could not parse symptoms from response"
  end.

(** Lines 215 to 221. *)
Definition causes_reply_handler (JSON_parse : string -> result value)
           (response : value) : M World unit :=
  jsonMatch <- lift (match_method Regex.brace_span response) ;;
  match jsonMatch with
  | Some span =>
      data <- lift (JSON_parse span) ;;
      setPotentialCauses data ;;
      causes <- lift (member data "causes") ;;
      addDebugLog ("Identified "
                   ++ to_string (or (opt_member causes "length") (Num 0))
                   ++ " potential causes") success ;;
      setActiveTab causes_tab
  | None => ret tt
  end.

(** Lines 244 to 250. *)
Definition solutions_reply_handler (JSON_parse : string -> result value)
           (response : value) : M World unit :=
  jsonMatch <- lift (match_method Regex.brace_span response) ;;
  match jsonMatch with
  | Some span =>
      data <- lift (JSON_parse span) ;;
      setSolutions data ;;
      found <- lift (member data "solutions") ;;
      addDebugLog ("Found solutions across "
                   ++ to_string (or (opt_member found "length") (Num 0))
                   ++ " categories") success ;;
      setActiveTab solutions_tab
  | None => ret tt
  end.

(** The text after the comma of the data URL, line 114. *)
Definition base64_part (dataURL : string) : option string :=
  nth_error (split ","%char dataURL) 1.

(** The context [extractTextFromPDF] sends with its prompt, line 114. *)
Definition pdf_context (part : string) : string :=
  "PDF Content (base64): " ++ substring 0 1000 part ++ "...".

End Blocks.

(** * Properties of the relay *)

Module RelayFacts.
Import Eff Js Net Relay.

Lemma lookup_absent (k : string) (fields : list (string * value)) :
  ~ In k (map fst fields) -> lookup k fields = Undefined.
Proof.
  induction fields as [|[k' v] rest IH]; simpl; intros Hnot.
  - reflexivity.
  - destruct (String.eqb_spec k' k) as [->|Hne].
    + exfalso. apply Hnot. now left.
    + apply IH. intros Hin. apply Hnot. now right.
Qed.

(** The guard of line 16: a body whose [apiKey] is falsy is answered at once,
    and the list of upstream requests is left as it was. *)
Lemma falsy_credential_rejected upstream (b : value) (trace : World) :
  nullish b = false ->
  truthy (prop b "apiKey") = false ->
  post_api_claude upstream b trace = (Ok (mkResponse 400 missing_key_body), trace).
Proof.
  intros Hb Hkey.
  unfold post_api_claude, post_api_claude_try, try_catch, bind, lift, destructure.
  rewrite Hb. cbn. rewrite Hkey. reflexivity.
Qed.


(** C1. A relay request whose body has no [apiKey] field is answered with
    status 400 and the JSON body [{error: 'API key is required'}], and the
    handler performs no upstream request: the list of upstream requests is
    the one it started with. *)
Theorem missing_credential_400 upstream (fields : list (string * value)) (trace : World) :
  ~ In "apiKey" (map fst fields) ->
  post_api_claude upstream (Obj fields) trace
  = (Ok (mkResponse 400 (Obj [("error", Str "API key is required")])), trace).
Proof.
  intros Habsent.
  apply falsy_credential_rejected; [reflexivity|].
  cbn. now rewrite lookup_absent.
Qed.

Lemma missing_credential_400_witness :
  ~ In "apiKey" (map fst [("messages", Samples.hello)])
  /\ post_api_claude Samples.upstream_unauthorized Samples.body_without_key []
     = (Ok (mkResponse 400 (Obj [("error", Str "API key is required")])), []).
Proof.
  assert (H : ~ In "apiKey" (map fst [("messages", Samples.hello)])).
  { cbn. intros [H|[]]. discriminate H. }
  split; [exact H|].
  exact (missing_credential_400 Samples.upstream_unauthorized _ [] H).
Defined.

(** C10. A relay request whose [apiKey] field is present and is the empty
    string is treated as one without credential: status 400, the same error
    body, and no upstream request. The test of line 16 is on truthiness. *)
Theorem empty_credential_400 upstream (fields : list (string * value)) (trace : World) :
  lookup "apiKey" fields = Str "" ->
  post_api_claude upstream (Obj fields) trace
  = (Ok (mkResponse 400 (Obj [("error", Str "API key is required")])), trace).
Proof.
  intros Hempty.
  apply falsy_credential_rejected; [reflexivity|].
  cbn. now rewrite Hempty.
Qed.

Lemma empty_credential_400_witness :
  lookup "apiKey" [("apiKey", Str ""); ("messages", Samples.hello)] = Str ""
  /\ post_api_claude Samples.upstream_unauthorized Samples.body_empty_key []
     = (Ok (mkResponse 400 (Obj [("error", Str "API key is required")])), []).
Proof.
  split; [reflexivity|].
  exact (empty_credential_400 Samples.upstream_unauthorized
           [("apiKey", Str ""); ("messages", Samples.hello)] [] eq_refl).
Defined.

(** [JSON.stringify] drops the [undefined] properties, which read back as
    [undefined] anyway. *)
Lemma prop_stringify_fields (k : string) (fields : list (string * value)) :
  NoDup (map fst fields) ->
  prop (stringify_fields fields) k = lookup k fields.
Proof.
  unfold stringify_fields. cbn [prop].
  induction fields as [|[k' v] rest IH]; intros Hnd; [reflexivity|].
  inversion Hnd as [|? ? Hnotin Hrest]; subst.
  assert (Hdrop : v = Undefined -> lookup k (filter
            (fun kv => match snd kv with Undefined => false | _ => true end) rest)
            = lookup k ((k', v) :: rest)).
  { intros ->. cbn [lookup]. destruct (String.eqb_spec k' k) as [->|_].
    - rewrite (IH Hrest). now apply lookup_absent.
    - exact (IH Hrest). }
  destruct v; cbn [filter snd lookup]; try (rewrite (IH Hrest); reflexivity).
  apply Hdrop. reflexivity.
Qed.

Lemma or_truthy (a d : value) : truthy d = true -> truthy (or a d) = true.
Proof. unfold or. destruct (truthy a) eqn:E; auto. Qed.

(** When does the [try] block throw, and with which message: the request
    has no body object; [fetch] rejects; [response.json()] rejects; the
    successful reply is [null], whose [usage] cannot be read. *)
Lemma try_block_throws upstream (b : value) (trace : World) (m : string) :
  fst (post_api_claude_try upstream b trace) = Throw m <->
  (nullish b = true /\ m = destructure_message b)
  \/ (nullish b = false /\ truthy (prop b "apiKey") = true
      /\ (upstream (upstream_request b) = NetworkError m
          \/ (exists st, upstream (upstream_request b) = Response st (Throw m))
          \/ (exists st data,
                upstream (upstream_request b) = Response st (Ok data)
                /\ ok st = true /\ member data "usage" = Throw m))).
Proof.
  unfold post_api_claude_try, bind, lift, destructure, fetch.
  destruct (nullish b) eqn:Hb; cbn [fst].
  { split.
    - intros H. left. split; congruence.
    - intros [[_ ->]|[H _]]; [reflexivity|discriminate H]. }
  cbn. destruct (truthy (prop b "apiKey")) eqn:Hkey; cbn.
  2:{ split; [discriminate|]. intros [[H _]|(_ & H & _)]; discriminate H. }
  destruct (upstream (upstream_request b)) as [m'|st js] eqn:Hup; cbn.
  { split.
    - intros H. right. repeat split. left. congruence.
    - intros [[H _]|(_ & _ & [H|[[st H]|(st & d & H & _)]])]; congruence. }
  assert (Hshape : forall P : Prop,
             (P <-> (js = Throw m \/ exists data,
                        js = Ok data /\ ok st = true /\ member data "usage" = Throw m)) ->
             (P <-> (false = true /\ m = destructure_message b)
                    \/ (false = false /\ true = true
                        /\ (Response st js = NetworkError m
                            \/ (exists st0, Response st js = Response st0 (Throw m))
                            \/ (exists st0 data,
                                   Response st js = Response st0 (Ok data)
                                   /\ ok st0 = true /\ member data "usage" = Throw m))))).
  { intros P [HP HP']. split.
    - intros HPp. right. repeat split. destruct (HP HPp) as [->|(d & -> & Hok & Hu)].
      + right. left. now exists st.
      + right. right. now exists st, d.
    - intros [[H _]|(_ & _ & [H|[[st' H]|(st' & d & H & Hok & Hu)]])];
        try discriminate H; apply HP'; inversion H; subst.
      + now left.
      + right. now exists d. }
  apply Hshape.
  destruct (ok st) eqn:Hok; cbn; destruct js as [data|m']; cbn.
  - destruct (member data "usage") as [u|m'] eqn:Hu; cbn.
    + split; [discriminate|]. intros [H|(d & H & _ & H')]; [discriminate H|].
      inversion H; subst. congruence.
    + split.
      * intros H. right. exists data. repeat split; congruence.
      * intros [H|(d & H & _ & H')]; [discriminate H|]. inversion H; subst. congruence.
  - split; [intros H; left; congruence|].
    intros [H|(d & H & _)]; [congruence|discriminate H].
  - split; [discriminate|]. intros [H|(d & _ & H & _)]; discriminate H.
  - split; [intros H; left; congruence|].
    intros [H|(d & H & _)]; [congruence|discriminate H].
Qed.









End RelayFacts.

(** * Properties of the string methods and of the regular expressions *)

Module StringFacts.
Import JsString.

Lemma trim_start_empty (s : string) :
  trim_start s = "" <-> whitespace_only s = true.
Proof.
  induction s as [|c t IH]; cbn; [tauto|].
  destruct (is_space c); cbn; [exact IH|].
  split; discriminate.
Qed.

Lemma trim_end_empty (s : string) :
  trim_end s = "" <-> whitespace_only s = true.
Proof.
  induction s as [|c t IH]; cbn; [tauto|].
  destruct (trim_end t) as [|x r] eqn:E.
  - destruct (is_space c); cbn.
    + split; intros _; [now apply IH|reflexivity].
    + split; discriminate.
  - split; [discriminate|].
    intros H. apply andb_prop in H as [_ H]. apply IH in H. discriminate H.
Qed.

Lemma whitespace_only_trim_start (s : string) :
  whitespace_only (trim_start s) = whitespace_only s.
Proof.
  induction s as [|c t IH]; cbn; [reflexivity|].
  destruct (is_space c) eqn:E; cbn; [exact IH|].
  now rewrite E.
Qed.

(** [s.trim()] is the empty string exactly when [s] is empty or holds white
    space only. *)
Lemma trim_empty (s : string) : trim s = "" <-> whitespace_only s = true.
Proof.
  unfold trim. rewrite trim_end_empty. now rewrite whitespace_only_trim_start.
Qed.

End StringFacts.

Module RegexFacts.
Import Regex.

Lemma append_assoc (a b c : string) : (a ++ b) ++ c = a ++ (b ++ c).
Proof. induction a as [|x a IH]; cbn; [reflexivity|now rewrite IH]. Qed.


Lemma greedy_to_none (close : ascii) (s : string) :
  greedy_to close s = None <-> has_char close s = false.
Proof.
  induction s as [|x t IH]; cbn; [tauto|].
  destruct (greedy_to close t) as [m|].
  - split; [discriminate|]. intros H. apply orb_false_elim in H as [_ H].
    apply IH in H. discriminate H.
  - destruct (Ascii.eqb x close); cbn.
    + split; discriminate.
    + split; intros _; [now apply IH|reflexivity].
Qed.

(** The greedy star stops at the last closing character. *)
Lemma greedy_to_some (close : ascii) (s m : string) :
  greedy_to close s = Some m ->
  exists inside after,
    s = inside ++ String close after
    /\ m = inside ++ String close ""
    /\ has_char close after = false.
Proof.
  revert m. induction s as [|x t IH]; cbn; intros m H; [discriminate H|].
  destruct (greedy_to close t) as [m'|] eqn:E.
  - inversion H; subst. destruct (IH m' eq_refl) as (i & a & -> & -> & Ha).
    now exists (String x i), a.
  - destruct (Ascii.eqb_spec x close) as [->|_]; [|discriminate H].
    inversion H; subst. exists "", t. repeat split. now apply greedy_to_none.
Qed.

Lemma greedy_to_last (close : ascii) (inside after : string) :
  has_char close after = false ->
  greedy_to close (inside ++ String close after) = Some (inside ++ String close "").
Proof.
  intros Ha. induction inside as [|x i IH]; cbn.
  - apply greedy_to_none in Ha. rewrite Ha. now rewrite Ascii.eqb_refl.
  - now rewrite IH.
Qed.

Lemma delimited_needs_close (open close : ascii) (s : string) :
  has_char close s = false -> delimited open close s = None.
Proof.
  induction s as [|x t IH]; cbn; intros H; [reflexivity|].
  apply orb_false_elim in H as [_ H].
  rewrite (proj2 (greedy_to_none close t) H), (IH H).
  now destruct (Ascii.eqb x open).
Qed.

(** What [match] returns: the text from the first opening character that
    has a closing character after it to the last closing character. *)
Lemma delimited_some (open close : ascii) (s m : string) :
  delimited open close s = Some m ->
  exists before inside after,
    s = before ++ String open (inside ++ String close after)
    /\ m = String open (inside ++ String close "")
    /\ has_char close after = false.
Proof.
  revert m. induction s as [|x t IH]; cbn; intros m H; [discriminate H|].
  destruct (Ascii.eqb_spec x open) as [->|_].
  - destruct (greedy_to close t) as [m'|] eqn:E.
    + inversion H; subst.
      destruct (greedy_to_some _ _ _ E) as (i & a & -> & -> & Ha).
      now exists "", i, a.
    + apply greedy_to_none in E.
      rewrite (delimited_needs_close open close t E) in H. discriminate H.
  - destruct (IH m H) as (b & i & a & -> & -> & Ha).
    now exists (String x b), i, a.
Qed.

Lemma delimited_starts_with_open (open close : ascii) (s m : string) :
  delimited open close s = Some m -> exists rest, m = String open rest.
Proof.
  intros H. destruct (delimited_some _ _ _ _ H) as (_ & i & _ & _ & -> & _).
  now eexists.
Qed.

(** The span from the first opening character to the last closing one is
    what [match] returns. *)
Lemma delimited_first_to_last (open close : ascii) (before inside after : string) :
  has_char open before = false ->
  has_char close after = false ->
  delimited open close (before ++ String open (inside ++ String close after))
  = Some (String open (inside ++ String close "")).
Proof.
  intros Hb Ha. induction before as [|x b IH]; cbn.
  - now rewrite Ascii.eqb_refl, greedy_to_last.
  - cbn in Hb. apply orb_false_elim in Hb as [Hx Hb].
    rewrite Hx. now apply IH.
Qed.


End RegexFacts.

(** * Properties of the controller *)

Module AppFacts.
Import Eff Eff.Notations Js Net JsString App.

(** ** What a computation leaves alone *)

Section Keeps.
Context {X : Type} (f : World -> X).

Lemma keeps_ret {A} (a : A) : keeps f (ret a).
Proof. intros w. reflexivity. Qed.

Lemma keeps_throw {A} (m : string) : keeps f (@throw World A m).
Proof. intros w. reflexivity. Qed.

Lemma keeps_lift {A} (r : result A) : keeps f (lift r).
Proof. intros w. reflexivity. Qed.

Lemma keeps_gets {A} (g : World -> A) : keeps f (gets g).
Proof. intros w. reflexivity. Qed.

Lemma keeps_modify (g : World -> World) :
  (forall w, f (g w) = f w) -> keeps f (modify g).
Proof. intros H w. apply H. Qed.

Lemma keeps_bind {A B} (c : M World A) (k : A -> M World B) :
  keeps f c -> (forall a, keeps f (k a)) -> keeps f (bind c k).
Proof.
  intros Hc Hk w. unfold bind. specialize (Hc w).
  destruct (c w) as [[a|m] w']; cbn in *.
  - now rewrite Hk.
  - exact Hc.
Qed.

Lemma keeps_try_catch {A} (c : M World A) (h : string -> M World A) :
  keeps f c -> (forall m, keeps f (h m)) -> keeps f (try_catch c h).
Proof.
  intros Hc Hh w. unfold try_catch. specialize (Hc w).
  destruct (c w) as [[a|m] w']; cbn in *.
  - exact Hc.
  - now rewrite Hh.
Qed.

Lemma keeps_try_finally {A} (c : M World A) (fin : M World unit) :
  keeps f c -> keeps f fin -> keeps f (try_finally c fin).
Proof.
  intros Hc Hfin w. unfold try_finally. specialize (Hc w).
  destruct (c w) as [r w']. specialize (Hfin w').
  destruct (fin w') as [[u|m] w'']; cbn in *; congruence.
Qed.
End Keeps.

Lemma keeps_tab_addDebugLog (msg : string) (ty : LogType) :
  keeps tab_of (addDebugLog msg ty).
Proof. now apply keeps_modify. Qed.

Lemma keeps_tab_alert (text : string) : keeps tab_of (alert text).
Proof. now apply keeps_modify. Qed.

Lemma keeps_tab_setLoading (b : bool) : keeps tab_of (setLoading b).
Proof. now apply keeps_modify. Qed.

Lemma keeps_tab_setExtractedSymptoms (v : value) :
  keeps tab_of (setExtractedSymptoms v).
Proof. now apply keeps_modify. Qed.

Lemma keeps_tab_fetch net (rq : Request) : keeps tab_of (fetch net rq).
Proof. intros w. unfold fetch. now destruct (net rq). Qed.

Create HintDb keeps.

#[local] Hint Resolve keeps_ret keeps_throw keeps_lift keeps_gets
  keeps_tab_addDebugLog keeps_tab_alert keeps_tab_setLoading
  keeps_tab_setExtractedSymptoms keeps_tab_fetch : keeps.

Ltac keeps_step :=
  match goal with
  | |- keeps _ (bind _ _) => apply keeps_bind; [|intros ?]
  | |- keeps _ (try_catch _ _) => apply keeps_try_catch; [|intros ?]
  | |- keeps _ (try_finally _ _) => apply keeps_try_finally
  | |- keeps _ (if ?b then _ else _) => destruct b
  | |- keeps _ (let (_, _) := ?p in _) => destruct p
  | |- keeps _ (match ?x with Some _ => _ | None => _ end) => destruct x
  | |- keeps _ _ => solve [auto with keeps]
  end.

Lemma keeps_tab_callClaude net (prompt context : string) :
  keeps tab_of (callClaude net prompt context).
Proof. unfold callClaude. repeat keeps_step. Qed.

(** ** Running [callClaude] *)



#[local] Opaque callClaude.



(** ** The confirmed set *)

Section Toggle.
Variable s : Symptom.
Let same (x : Symptom) : bool := symptom x =? symptom s.

Lemma find_filter_others (l : list Symptom) :
  find same (filter (fun x => negb (same x)) l) = None.
Proof.
  induction l as [|x l IH]; cbn; [reflexivity|].
  destruct (same x) eqn:E; cbn; [exact IH|]. now rewrite E.
Qed.

Lemma filter_others_absent (l : list Symptom) :
  find same l = None -> filter (fun x => negb (same x)) l = l.
Proof.
  induction l as [|x l IH]; cbn; [reflexivity|].
  destruct (same x) eqn:E; cbn; [discriminate|].
  intros H. now rewrite IH.
Qed.

Lemma find_appended (l : list Symptom) :
  find same l = None -> find same (l ++ [s]) = Some s.
Proof.
  induction l as [|x l IH]; cbn.
  - intros _. unfold same. now rewrite String.eqb_refl.
  - destruct (same x); [discriminate|exact IH].
Qed.

Lemma filter_appended (l : list Symptom) :
  filter (fun x => negb (same x)) (l ++ [s]) = filter (fun x => negb (same x)) l.
Proof.
  rewrite filter_app. cbn. unfold same at 2. rewrite String.eqb_refl. cbn.
  apply app_nil_r.
Qed.

(** One toggle flips how the view shows the symptom. *)
Lemma toggle_flips (prev : list Symptom) :
  is_confirmed s (toggle s prev) = negb (is_confirmed s prev).
Proof.
  unfold is_confirmed, toggle. fold same.
  destruct (find same prev) eqn:E.
  - now rewrite find_filter_others.
  - now rewrite find_appended.
Qed.

(** Toggling a symptom that was not confirmed, twice, gives the list back. *)
Lemma toggle_twice_absent (prev : list Symptom) :
  is_confirmed s prev = false -> toggle s (toggle s prev) = prev.
Proof.
  unfold is_confirmed, toggle. fold same.
  destruct (find same prev) eqn:E; [discriminate|]. intros _.
  rewrite find_appended by exact E.
  rewrite filter_appended. now apply filter_others_absent.
Qed.
End Toggle.

(** C7, at a concrete set: [Fever] is confirmed; after two toggles of
    [Fever] the confirmed list is [[Fever]] again and the view shows it as
    confirmed. *)
Lemma toggle_twice_of_confirmed_stays_confirmed :
  let w := Samples.world_of Samples.one_confirmed in
  let w2 := snd (toggleSymptom Samples.fever (snd (toggleSymptom Samples.fever w))) in
  confirmedSymptoms (state w) = [Samples.fever]
  /\ confirmedSymptoms (state w2) = [Samples.fever]
  /\ is_confirmed Samples.fever (confirmedSymptoms (state w2)) = true.
Proof. cbv zeta. repeat split. Qed.

(** C7, amended. For every symptom [s] and every confirmed list, toggling
    [s] twice in succession leaves [s] confirmed exactly when it was
    confirmed before, membership being decided by the symptom name; when [s]
    was not confirmed before, the two toggles give back the same list and [s]
    is not confirmed. *)
Theorem toggle_twice_restores_membership (s : Symptom) (w : World) :
  let w2 := snd (toggleSymptom s (snd (toggleSymptom s w))) in
  is_confirmed s (confirmedSymptoms (state w2))
  = is_confirmed s (confirmedSymptoms (state w))
  /\ (is_confirmed s (confirmedSymptoms (state w)) = false ->
      confirmedSymptoms (state w2) = confirmedSymptoms (state w)
      /\ is_confirmed s (confirmedSymptoms (state w2)) = false).
Proof.
  destruct w as [st al rq]. cbn.
  split.
  - rewrite !toggle_flips. apply negb_involutive.
  - intros H. rewrite toggle_twice_absent by exact H. now split.
Qed.

Lemma toggle_twice_restores_membership_witness :
  let w := Samples.world_of Samples.one_confirmed in
  let w2 := snd (toggleSymptom Samples.cough (snd (toggleSymptom Samples.cough w))) in
  is_confirmed Samples.cough (confirmedSymptoms (state w)) = false
  /\ confirmedSymptoms (state w2) = [Samples.fever]
  /\ is_confirmed Samples.cough (confirmedSymptoms (state w2)) = false.
Proof.
  cbv zeta. split; [reflexivity|].
  exact (proj2 (toggle_twice_restores_membership Samples.cough
                  (Samples.world_of Samples.one_confirmed)) eq_refl).
Defined.

(** ** Cause analysis *)





(** ** Symptom extraction *)




(** ** The active tab *)

#[local] Hint Resolve keeps_tab_callClaude : keeps.

(** [analyzeSymptoms] has no [setActiveTab]: on every exit, with every
    relay behaviour and every parser, the active tab is the one before. *)
Lemma analyzeSymptoms_keeps_tab net JSON_parse :
  keeps tab_of (analyzeSymptoms net JSON_parse).
Proof. unfold analyzeSymptoms. repeat keeps_step. Qed.

(** The sibling handlers do advance: a successful cause analysis moves to
    the causes tab, a successful document ingestion to the symptoms tab. *)
Lemma analyzeCauses_advances :
  let r := analyzeCauses (Samples.relay_to Samples.no_causes_reply)
                         RefJSON.parse (Samples.world_of Samples.one_confirmed) in
  fst r = Ok tt
  /\ potentialCauses (state (snd r)) = Obj [("causes", Arr [])]
  /\ activeTab (state (snd r)) = causes_tab.
Proof. cbv zeta. repeat split. Qed.

Lemma handleFileUpload_advances :
  let r := handleFileUpload (Samples.relay_to "Hemoglobin: 8.2 g/dL (low)")
                            (Some Samples.pdf_file) (Samples.world_of Samples.pasted) in
  fst r = Ok tt
  /\ pdfText (state (snd r)) = Str "Hemoglobin: 8.2 g/dL (low)"
  /\ extractedSymptoms (state (snd r)) = Arr []
  /\ activeTab (state (snd r)) = symptoms_tab.
Proof. cbv zeta. repeat split. Qed.

(** C9, the code at the spec's scenario. Text is pasted on the upload tab,
    the user requests the analysis, and the reply parses: the
    extracted-symptom set is populated with the one symptom of the reply and
    no failure is shown, but the active tab is still the upload tab. *)
Theorem pasted_text_analysis_stays_on_upload :
  let w := Samples.world_of Samples.pasted in
  let r := analyzeSymptoms (Samples.relay_to Samples.hemoglobin_reply)
                           RefJSON.parse w in
  activeTab (state w) = upload_tab
  /\ fst r = Ok tt
  /\ extractedSymptoms (state (snd r)) = Samples.hemoglobin_symptoms
  /\ alerts (snd r) = []
  /\ activeTab (state (snd r)) = upload_tab.
Proof. cbv zeta. repeat split. Qed.

End AppFacts.

(** * More properties of the relay *)

Module RelayMore.
Import Eff Js Net Relay.

Lemma run_with_credential upstream (b : value) (trace : World) :
  nullish b = false ->
  truthy (prop b "apiKey") = true ->
  post_api_claude upstream b trace
  = match upstream (upstream_request b) with
    | NetworkError m => (Ok (mkResponse 500 (server_error m)), trace ++ [upstream_request b])
    | Response st (Throw m) =>
        (Ok (mkResponse 500 (server_error m)), trace ++ [upstream_request b])
    | Response st (Ok data) =>
        if ok st then
          match member data "usage" with
          | Ok _ => (Ok (mkResponse 200 data), trace ++ [upstream_request b])
          | Throw m => (Ok (mkResponse 500 (server_error m)), trace ++ [upstream_request b])
          end
        else (Ok (mkResponse st data), trace ++ [upstream_request b])
    end%list.
Proof.
  intros Hb Hkey.
  unfold post_api_claude, post_api_claude_try, try_catch, bind, lift, destructure, fetch.
  rewrite Hb. cbn. rewrite Hkey. cbn.
  destruct (upstream (upstream_request b)) as [m|st [data|m]]; cbn; try reflexivity.
  - destruct (ok st); cbn; [|reflexivity]. now destruct (member data "usage").
  - now destruct (ok st).
Qed.

Lemma run_without_body upstream (b : value) (trace : World) :
  nullish b = true ->
  post_api_claude upstream b trace
  = (Ok (mkResponse 500 (server_error (destructure_message b))), trace).
Proof.
  intros Hb.
  unfold post_api_claude, post_api_claude_try, try_catch, bind, lift, destructure.
  now rewrite Hb.
Qed.

Lemma member_non_nullish (data : value) (k : string) :
  nullish data = false -> member data k = Ok (prop data k).
Proof. intros H. unfold member. now rewrite H. Qed.





(** The status of the relay's reply is 200, 400 or 500, or else the
    non-success status the upstream call completed with; the relay invents
    no other status. *)
Theorem reply_status_origin upstream (b : value) (trace : World) :
  exists reply,
    fst (post_api_claude upstream b trace) = Ok reply
    /\ (status reply = 200%Z
        \/ status reply = 400%Z
        \/ status reply = 500%Z
        \/ (ok (status reply) = false
            /\ exists js, upstream (upstream_request b) = Response (status reply) js)).
Proof.
  destruct (nullish b) eqn:Hb.
  { rewrite run_without_body by exact Hb. eexists. split; [reflexivity|]. cbn. tauto. }
  destruct (truthy (prop b "apiKey")) eqn:Hkey.
  2:{ rewrite RelayFacts.falsy_credential_rejected by assumption.
      eexists. split; [reflexivity|]. cbn. tauto. }
  rewrite run_with_credential by assumption.
  destruct (upstream (upstream_request b)) as [m|st [d|m]] eqn:Hup;
    try (eexists; split; [reflexivity|]; cbn; tauto).
  destruct (ok st) eqn:Hok.
  - destruct (member d "usage"); (eexists; split; [reflexivity|]); cbn; tauto.
  - eexists. split; [reflexivity|]. cbn. right. right. right.
    split; [exact Hok|]. now exists (Ok d).
Qed.

(** The payload sent upstream has no property besides [model], [max_tokens],
    [system] and [messages]: whatever else the caller's body holds, the
    credential included, is not forwarded in the payload. *)
Theorem payload_has_four_fields (b : value) (k : string) :
  ~ In k ["model"; "max_tokens"; "system"; "messages"] ->
  prop (body (upstream_request b)) k = Undefined.
Proof.
  intros Hk. unfold upstream_request. cbn [body].
  assert (Hnd : NoDup (map fst
            [("model", or (prop b "model") (Str default_model));
             ("max_tokens", or (prop b "max_tokens") (Num default_max_tokens));
             ("system", prop b "system"); ("messages", prop b "messages")])).
  { cbn. repeat constructor; cbn; intuition discriminate. }
  rewrite (RelayFacts.prop_stringify_fields _ _ Hnd).
  apply RelayFacts.lookup_absent. exact Hk.
Qed.

Lemma payload_has_four_fields_witness :
  prop Samples.body_full "apiKey" = Str "sk-test"
  /\ prop (body (upstream_request Samples.body_full)) "apiKey" = Undefined.
Proof.
  split; [reflexivity|].
  apply (payload_has_four_fields Samples.body_full "apiKey").
  cbn. intros [H|[H|[H|[H|[]]]]]; discriminate H.
Defined.


(** A request that arrives without a parsed body ([req.body] is [undefined]
    or [null]) makes the destructuring of line 14 throw: the relay answers 500
    with a [server_error] body, not 400, and performs no upstream request. *)
Theorem missing_body_is_500 upstream (b : value) (trace : World) :
  nullish b = true ->
  exists message,
    post_api_claude upstream b trace
    = (Ok (mkResponse 500
             (Obj [("error", Obj [("message", Str message);
                                  ("type", Str "server_error")])])),
       trace).
Proof.
  intros Hb. exists (destructure_message b). now apply run_without_body.
Qed.

Lemma missing_body_is_500_witness :
  exists message,
    post_api_claude Samples.upstream_unauthorized Undefined []
    = (Ok (mkResponse 500
             (Obj [("error", Obj [("message", Str message);
                                  ("type", Str "server_error")])])),
       []).
Proof.
  exact (missing_body_is_500 Samples.upstream_unauthorized Undefined [] eq_refl).
Defined.

End RelayMore.

(** * More properties of the controller *)

Module ClaudeFacts.
Import Eff Eff.Notations Js Net JsString App Steps.

Ltac run_callClaude :=
  unfold callClaude, bind, gets, try_catch, lift, fetch, addDebugLog, setState,
    modify, throw, claude_content, logged_entry, sent;
  cbn [state alerts requests fst snd].

(** ** The run of [callClaude] on each of its paths *)

Lemma run_without_key net (prompt context : string) (w : World) :
  apiKey (state w) = "" ->
  callClaude net prompt context w
  = (Throw "Please configure your Claude API key first",
     logged_entry "Error: No API Key configured" error w).
Proof.
  intros Hkey. run_callClaude. rewrite Hkey. reflexivity.
Qed.

Lemma run_network_failure net (prompt context m : string) (w : World) :
  apiKey (state w) <> "" ->
  net (relay_request (apiKey (state w)) (claude_content prompt context))
  = NetworkError m ->
  callClaude net prompt context w
  = (Throw m,
     logged_entry ("Exception: " ++ m) error
       (sent (relay_request (apiKey (state w)) (claude_content prompt context))
          (logged_entry "Making API call via proxy..." info w))).
Proof.
  intros Hkey Hnet. apply String.eqb_neq in Hkey.
  run_callClaude. rewrite Hkey. unfold claude_content in Hnet. rewrite Hnet.
  reflexivity.
Qed.



Lemma requests_after_call net (prompt context : string) (w : World) :
  requests (snd (callClaude net prompt context w))
  = (requests w
       ++ (if apiKey (state w) =? "" then []
           else [relay_request (apiKey (state w))
                   (if context =? "" then prompt else context ++ nl ++ nl ++ prompt)]))%list.
Proof.
  run_callClaude. destruct (apiKey (state w) =? ""); cbn.
  { now rewrite app_nil_r. }
  destruct (net _) as [m|st [data|m]]; cbn; try reflexivity.
  - destruct (ok st); cbn.
    + destruct (member data "usage"); cbn; [|reflexivity].
      now destruct (content_text data).
    + destruct (member data "error"); reflexivity.
  - now destruct (ok st).
Qed.

(** ** What a caller of [callClaude] observes *)

(** Without a configured key [callClaude] throws before anything is sent:
    the exception carries the message asking for a key, one error entry is
    added to the debug log, and the rest of the world is untouched. *)
Theorem callClaude_without_key net (prompt context : string) (w : World) :
  apiKey (state w) = "" ->
  let r := callClaude net prompt context w in
  fst r = Throw "Please configure your Claude API key first"
  /\ requests (snd r) = requests w
  /\ alerts (snd r) = alerts w
  /\ state (snd r)
     = with_debugLogs
         (debugLogs (state w) ++ [mkLog "Error: No API Key configured" error]) (state w).
Proof.
  intros Hkey. cbv zeta. rewrite run_without_key by exact Hkey. repeat split.
Qed.

Lemma callClaude_without_key_witness :
  let r := callClaude Samples.upstream_unreachable causes_prompt "Symptoms: Fever"
                      (Samples.world_of Samples2.no_key) in
  fst r = Throw "Please configure your Claude API key first"
  /\ requests (snd r) = []
  /\ alerts (snd r) = []
  /\ state (snd r)
     = with_debugLogs [mkLog "Error: No API Key configured" error] Samples2.no_key.
Proof.
  exact (callClaude_without_key Samples.upstream_unreachable causes_prompt
           "Symptoms: Fever" (Samples.world_of Samples2.no_key) eq_refl).
Defined.

(** When the request to the relay fails on the network, [callClaude] throws
    the failure's message again; the debug log gains the entry of the call and
    an error entry with that message, and nothing is shown to the user by
    [callClaude] itself. *)
Theorem callClaude_network_failure net (prompt context m : string) (w : World) :
  apiKey (state w) <> "" ->
  net (relay_request (apiKey (state w))
         (if context =? "" then prompt else context ++ nl ++ nl ++ prompt))
  = NetworkError m ->
  let r := callClaude net prompt context w in
  fst r = Throw m
  /\ debugLogs (state (snd r))
     = (debugLogs (state w)
          ++ [mkLog "Making API call via proxy..." info;
              mkLog ("Exception: " ++ m) error])%list
  /\ alerts (snd r) = alerts w.
Proof.
  intros Hkey Hnet. cbv zeta.
  rewrite (run_network_failure _ _ _ m _ Hkey Hnet). cbn.
  rewrite <- app_assoc. repeat split.
Qed.

Lemma callClaude_network_failure_witness :
  let r := callClaude Samples.upstream_unreachable causes_prompt "Symptoms: Fever"
                      (Samples.world_of Samples.one_confirmed) in
  fst r = Throw "fetch failed"
  /\ debugLogs (state (snd r))
     = [mkLog "Making API call via proxy..." info;
        mkLog "Exception: fetch failed" error]
  /\ alerts (snd r) = [].
Proof.
  assert (Hkey : apiKey (state (Samples.world_of Samples.one_confirmed)) <> "")
    by discriminate.
  exact (callClaude_network_failure Samples.upstream_unreachable causes_prompt
           "Symptoms: Fever" "fetch failed"
           (Samples.world_of Samples.one_confirmed) Hkey eq_refl).
Defined.



(** Whatever the relay does, [callClaude] sends at most one request: none
    without a key, and otherwise exactly the request that carries the key, the
    fixed model and token limit, the system prompt, and one user message made
    of the context, a blank line and the prompt (the prompt alone when the
    context is empty). Earlier requests stay in the list. *)
Theorem callClaude_sends net (prompt context : string) (w : World) :
  let sent_now := requests (snd (callClaude net prompt context w)) in
  (apiKey (state w) = "" -> sent_now = requests w)
  /\ (apiKey (state w) <> "" ->
      sent_now
      = (requests w
           ++ [mkRequest "/api/claude" "POST" [("Content-Type", Str "application/json")]
                 (Obj [("apiKey", Str (apiKey (state w)));
                       ("model", Str "claude-sonnet-4-20250514");
                       ("max_tokens", Num 4096);
                       ("system", Str SYSTEM_PROMPT);
                       ("messages",
                        Arr [Obj [("role", Str "user");
                                  ("content",
                                   Str (if context =? "" then prompt
                                        else context ++ nl ++ nl ++ prompt))]])])])%list).
Proof.
  cbv zeta. rewrite requests_after_call. split; intros Hkey.
  - rewrite Hkey. cbn. apply app_nil_r.
  - apply String.eqb_neq in Hkey. rewrite Hkey. reflexivity.
Qed.

Lemma callClaude_sends_witness :
  requests (snd (callClaude Samples.upstream_unreachable causes_prompt ""
                            (Samples.world_of Samples.one_confirmed)))
  = [relay_request "sk-test" causes_prompt].
Proof.
  assert (Hkey : apiKey (state (Samples.world_of Samples.one_confirmed)) <> "")
    by discriminate.
  exact (proj2 (callClaude_sends Samples.upstream_unreachable causes_prompt ""
                  (Samples.world_of Samples.one_confirmed)) Hkey).
Defined.

End ClaudeFacts.

Module HandlerFacts.
Import Eff Eff.Notations Js Net JsString App Stage3 Steps.

(** ** Moving along a preorder *)

Section Respects.
Variable R : World -> World -> Prop.
Hypothesis R_refl : forall w, R w w.
Hypothesis R_trans : forall a b c, R a b -> R b c -> R a c.

Lemma respects_ret {A} (a : A) : respects R (ret a).
Proof. intros w. apply R_refl. Qed.

Lemma respects_throw {A} (m : string) : respects R (@throw World A m).
Proof. intros w. apply R_refl. Qed.

Lemma respects_lift {A} (r : result A) : respects R (lift r).
Proof. intros w. apply R_refl. Qed.

Lemma respects_gets {A} (g : World -> A) : respects R (gets g).
Proof. intros w. apply R_refl. Qed.

Lemma respects_bind {A B} (c : M World A) (k : A -> M World B) :
  respects R c -> (forall a, respects R (k a)) -> respects R (bind c k).
Proof.
  intros Hc Hk w. unfold bind. specialize (Hc w).
  destruct (c w) as [[a|m] w']; cbn in *; [|exact Hc].
  eapply R_trans; [exact Hc|apply Hk].
Qed.

Lemma respects_try_catch {A} (c : M World A) (h : string -> M World A) :
  respects R c -> (forall m, respects R (h m)) -> respects R (try_catch c h).
Proof.
  intros Hc Hh w. unfold try_catch. specialize (Hc w).
  destruct (c w) as [[a|m] w']; cbn in *; [exact Hc|].
  eapply R_trans; [exact Hc|apply Hh].
Qed.

Lemma respects_try_finally {A} (c : M World A) (fin : M World unit) :
  respects R c -> respects R fin -> respects R (try_finally c fin).
Proof.
  intros Hc Hfin w. unfold try_finally. specialize (Hc w).
  destruct (c w) as [r w']. specialize (Hfin w').
  destruct (fin w') as [[u|m] w'']; cbn in *; eapply R_trans; eassumption.
Qed.
End Respects.

(** ** The log, the alerts and the requests only grow *)

Lemma extends_refl {A} (l : list A) : extends l l.
Proof. exists []. now rewrite app_nil_r. Qed.

Lemma extends_trans {A} (a b c : list A) : extends a b -> extends b c -> extends a c.
Proof. intros [x ->] [y ->]. exists (x ++ y)%list. now rewrite app_assoc. Qed.

Lemma extends_snoc {A} (l : list A) (x : A) : extends l (l ++ [x]).
Proof. now exists [x]. Qed.

Lemma grown_refl (w : World) : grown w w.
Proof. repeat split; apply extends_refl. Qed.

Lemma grown_trans (a b c : World) : grown a b -> grown b c -> grown a c.
Proof.
  intros (H1 & H2 & H3) (H1' & H2' & H3').
  repeat split; eapply extends_trans; eassumption.
Qed.

Lemma grows_setState (f : State -> State) :
  (forall s, debugLogs (f s) = debugLogs s) -> respects grown (setState f).
Proof.
  intros H w. unfold grown. cbn. rewrite H. repeat split; apply extends_refl.
Qed.

Lemma grows_addDebugLog (msg : string) (ty : LogType) : respects grown (addDebugLog msg ty).
Proof. intros w. unfold grown. cbn. repeat split; try apply extends_refl. apply extends_snoc. Qed.

Lemma grows_alert (text : string) : respects grown (alert text).
Proof. intros w. unfold grown. cbn. repeat split; try apply extends_refl. apply extends_snoc. Qed.

Lemma grows_setLoading (b : bool) : respects grown (setLoading b).
Proof. now apply grows_setState. Qed.

Lemma grows_setActiveTab (t : Tab) : respects grown (setActiveTab t).
Proof. now apply grows_setState. Qed.

Lemma grows_setPdfText (v : value) : respects grown (setPdfText v).
Proof. now apply grows_setState. Qed.

Lemma grows_setExtractedSymptoms (v : value) : respects grown (setExtractedSymptoms v).
Proof. now apply grows_setState. Qed.

Lemma grows_setPotentialCauses (v : value) : respects grown (setPotentialCauses v).
Proof. now apply grows_setState. Qed.

Lemma grows_setSolutions (v : value) : respects grown (setSolutions v).
Proof. now apply grows_setState. Qed.

Lemma grows_fetch net (rq : Request) : respects grown (fetch net rq).
Proof.
  intros w. unfold fetch, grown.
  destruct (net rq); cbn; repeat split; try apply extends_refl; apply extends_snoc.
Qed.

Create HintDb grows.

#[local] Hint Resolve grows_addDebugLog grows_alert grows_setLoading grows_setActiveTab
  grows_setPdfText grows_setExtractedSymptoms grows_setPotentialCauses grows_setSolutions
  grows_fetch : grows.

Ltac grows_step :=
  match goal with
  | |- respects grown (bind _ _) =>
      apply (respects_bind grown grown_trans); [|intros ?]
  | |- respects grown (try_catch _ _) =>
      apply (respects_try_catch grown grown_trans); [|intros ?]
  | |- respects grown (try_finally _ _) =>
      apply (respects_try_finally grown grown_trans)
  | |- respects grown (ret _) => apply (respects_ret grown grown_refl)
  | |- respects grown (throw _) => apply (respects_throw grown grown_refl)
  | |- respects grown (lift _) => apply (respects_lift grown grown_refl)
  | |- respects grown (gets _) => apply (respects_gets grown grown_refl)
  | |- respects grown (match ?x with _ => _ end) => destruct x
  | |- respects grown _ => solve [auto with grows]
  end.

Lemma grows_callClaude net (prompt context : string) :
  respects grown (callClaude net prompt context).
Proof. unfold callClaude. repeat grows_step. Qed.

#[local] Hint Resolve grows_callClaude : grows.

Lemma grows_extractTextFromPDF net (file : File) :
  respects grown (extractTextFromPDF net file).
Proof. unfold extractTextFromPDF. repeat grows_step. Qed.

#[local] Hint Resolve grows_extractTextFromPDF : grows.

(** Along each of the four staged handlers, whatever the relay answers and
    whatever [JSON.parse] does, the debug log, the alerts shown and the
    requests sent only grow: every earlier entry is still there, in place. *)
Theorem handlers_only_append net JSON_parse (file : option File) :
  respects grown (handleFileUpload net file)
  /\ respects grown (analyzeSymptoms net JSON_parse)
  /\ respects grown (analyzeCauses net JSON_parse)
  /\ respects grown (findSolutions net JSON_parse).
Proof.
  split; [|split; [|split]].
  - unfold handleFileUpload. repeat grows_step.
  - unfold analyzeSymptoms. repeat grows_step.
  - unfold analyzeCauses. repeat grows_step.
  - unfold findSolutions. repeat grows_step.
Qed.

(** ** Exceptions and the busy flag *)

(** A [try] whose [catch] only alerts and whose [finally] only clears the
    busy flag ends normally with the flag cleared. *)
Lemma guarded_block (c : M World unit) (text : string -> string) (w : World) :
  fst (try_finally (try_catch c (fun m => alert (text m))) (setLoading false) w) = Ok tt
  /\ loading (state (snd (try_finally (try_catch c (fun m => alert (text m)))
                                      (setLoading false) w))) = false.
Proof.
  unfold try_finally, try_catch. destruct (c w) as [[[]|m] w']; cbn; split; reflexivity.
Qed.

(** [handleFileUpload], [analyzeCauses] and [findSolutions] never end with
    an uncaught exception, whatever the file, the relay's answer and the
    result of [JSON.parse]. *)
Theorem handlers_never_throw net JSON_parse (file : option File) :
  never_throws (handleFileUpload net file)
  /\ never_throws (analyzeCauses net JSON_parse)
  /\ never_throws (findSolutions net JSON_parse).
Proof.
  split; [|split]; intros w; exists tt.
  - unfold handleFileUpload. destruct file as [f|]; [|reflexivity].
    destruct (negb (file_type f =? "application/pdf")); [reflexivity|].
    unfold bind at 1. cbv beta iota delta [setLoading setState modify].
    apply guarded_block.
  - unfold analyzeCauses, bind at 1 2, gets. cbv beta iota.
    destruct (_ && _); [reflexivity|].
    unfold bind at 1 2. cbv beta iota delta [setLoading addDebugLog setState modify].
    apply guarded_block.
  - unfold findSolutions, bind at 1, gets. cbv beta iota.
    destruct (negb _); [reflexivity|].
    unfold bind at 1 2. cbv beta iota delta [setLoading addDebugLog setState modify].
    apply guarded_block.
Qed.

(** ** The handlers in parts *)

Import Blocks.

Lemma analyzeSymptoms_block net JSON_parse (w : World) (text : string) :
  or (pdfText (state w)) (Str (manualText (state w))) = Str text ->
  analyzeSymptoms net JSON_parse w
  = if trim text =? "" then (Ok tt, alerted "Please provide medical data first" w)
    else try_finally
           (try_catch
              (bind (callClaude net symptoms_prompt ("Medical Data:" ++ nl ++ text))
                    (symptoms_reply_handler JSON_parse))
              (fun m => alert ("Failed to analyze symptoms: " ++ m)))
           (setLoading false)
           (logged_entry "Analyzing medical data for symptoms..." info (busy w)).
Proof.
  intros Htext. unfold analyzeSymptoms, bind at 1 2 3, gets, lift.
  cbv beta iota. rewrite Htext. cbn [trim_method].
  destruct (trim text =? ""); reflexivity.
Qed.

Lemma analyzeCauses_block net JSON_parse (w : World) :
  analyzeCauses net JSON_parse w
  = if nothing_to_analyze (state w)
    then (Ok tt, alerted "Please confirm at least one symptom or add additional symptoms" w)
    else try_finally
           (try_catch
              (bind (callClaude net causes_prompt
                       ("Symptoms: " ++ join ", " (allSymptoms (state w))))
                    (causes_reply_handler JSON_parse))
              (fun m => alert ("Failed to analyze causes: " ++ m)))
           (setLoading false)
           (logged_entry "Analyzing potential causes..." info (busy w)).
Proof.
  unfold analyzeCauses, bind at 1 2, gets, nothing_to_analyze. cbv beta iota.
  destruct (_ && _); reflexivity.
Qed.

Lemma findSolutions_block net JSON_parse (w : World) :
  findSolutions net JSON_parse w
  = if negb (truthy (potentialCauses (state w)))
    then (Ok tt, alerted "Please analyze causes first" w)
    else try_finally
           (try_catch
              (causes <- lift (member (potentialCauses (state w)) "causes") ;;
               conditions <- lift (map_method "potentialCauses.causes" causes "condition") ;;
               response <- callClaude net solutions_prompt
                             ("Conditions: " ++ join_values ", " conditions) ;;
               solutions_reply_handler JSON_parse response)%eff
              (fun m => alert ("Failed to find solutions: " ++ m)))
           (setLoading false)
           (logged_entry "Searching for treatment solutions..." info (busy w)).
Proof.
  unfold findSolutions, bind at 1, gets. cbv beta iota.
  destruct (negb _); reflexivity.
Qed.

Lemma handleFileUpload_block net (f : File) (w : World) :
  handleFileUpload net (Some f) w
  = if negb (file_type f =? "application/pdf")
    then (Ok tt, alerted "Please upload a PDF file"
                   (logged_entry "Invalid file type - PDF required" error w))
    else try_finally
           (try_catch
              (text <- extractTextFromPDF net f ;;
               setPdfText text ;;
               setActiveTab symptoms_tab)%eff
              (fun m => alert ("Failed to process PDF: " ++ m)))
           (setLoading false)
           (busy w).
Proof.
  unfold handleFileUpload. destruct (negb _); reflexivity.
Qed.

(** A guarded block whose first step throws. *)
Lemma block_throws {A} (c : M World A) (k : A -> M World unit)
      (text : string -> string) (w w1 : World) (m : string) :
  c w = (Throw m, w1) ->
  try_finally (try_catch (bind c k) (fun m => alert (text m))) (setLoading false) w
  = (Ok tt, idle (alerted (text m) w1)).
Proof. intros H. unfold try_finally, try_catch, bind. now rewrite H. Qed.

(** A guarded block whose first step returns. *)
Lemma block_returns {A} (c : M World A) (k : A -> M World unit)
      (text : string -> string) (w w1 : World) (a : A) :
  c w = (Ok a, w1) ->
  try_finally (try_catch (bind c k) (fun m => alert (text m))) (setLoading false) w
  = try_finally (try_catch (k a) (fun m => alert (text m))) (setLoading false) w1.
Proof. intros H. unfold try_finally, try_catch, bind. now rewrite H. Qed.

(** Each handler, started with the busy flag down, ends with the busy flag
    down, on the blocked, the failed and the successful paths alike. *)
Theorem handlers_release_busy_flag net JSON_parse (file : option File) :
  releases_busy_flag (handleFileUpload net file)
  /\ releases_busy_flag (analyzeSymptoms net JSON_parse)
  /\ releases_busy_flag (analyzeCauses net JSON_parse)
  /\ releases_busy_flag (findSolutions net JSON_parse).
Proof.
  split; [|split; [|split]]; intros w Hidle.
  - destruct file as [f|]; [|exact Hidle].
    rewrite handleFileUpload_block. destruct (negb _); [exact Hidle|].
    apply guarded_block.
  - unfold analyzeSymptoms, bind at 1 2 3, gets, lift. cbv beta iota.
    destruct (trim_method _ _) as [t|m]; [|exact Hidle].
    destruct (t =? ""); [exact Hidle|].
    unfold bind at 1 2. cbv beta iota delta [setLoading addDebugLog setState modify].
    apply guarded_block.
  - rewrite analyzeCauses_block. destruct (nothing_to_analyze _); [exact Hidle|].
    apply guarded_block.
  - rewrite findSolutions_block. destruct (negb _); [exact Hidle|].
    apply guarded_block.
Qed.

Lemma handlers_release_busy_flag_witness :
  loading (state (snd (analyzeCauses Samples.upstream_unreachable RefJSON.parse
                                     (Samples.world_of Samples.one_confirmed))))
  = false.
Proof.
  exact (proj1 (proj2 (proj2 (handlers_release_busy_flag Samples.upstream_unreachable
                                RefJSON.parse None)))
           (Samples.world_of Samples.one_confirmed) eq_refl).
Defined.

(** ** Symptom extraction *)



(** [analyzeSymptoms] ends with an uncaught exception in one case only: the
    source text is not a string, so that [medicalData.trim()], which runs
    before the [try] block, throws. The world is then left untouched. In every
    other case the handler ends normally. *)
Theorem analyzeSymptoms_uncaught net JSON_parse (w : World) (m : string) :
  (fst (analyzeSymptoms net JSON_parse w) = Throw m
   <-> trim_method "medicalData" (or (pdfText (state w)) (Str (manualText (state w))))
       = Throw m)
  /\ (fst (analyzeSymptoms net JSON_parse w) = Throw m ->
      snd (analyzeSymptoms net JSON_parse w) = w).
Proof.
  destruct (or (pdfText (state w)) (Str (manualText (state w)))) eqn:Hor.
  5:{ rewrite (analyzeSymptoms_block _ _ _ _ Hor). cbn [trim_method].
      destruct (trim s =? "").
      - cbn. split; [split|]; discriminate.
      - match goal with
        | |- context [try_finally (try_catch ?c _) _ ?w0] =>
            rewrite (proj1 (guarded_block c
                              (fun m => "Failed to analyze symptoms: " ++ m) w0))
        end.
        split; [split|]; discriminate. }
  all: remember (analyzeSymptoms net JSON_parse w) as r eqn:Hr;
    unfold analyzeSymptoms, bind at 1 2 3, gets, lift in Hr; cbv beta iota in Hr;
    rewrite Hor in Hr; cbn in Hr; subst r; cbn;
    (split; [split|]); intros H; try reflexivity; inversion H; reflexivity.
Qed.

Lemma analyzeSymptoms_uncaught_witness :
  let w1 := snd (handleFileUpload Samples2.numeric_text_reply (Some Samples.pdf_file)
                                  (Samples.world_of Samples.pasted)) in
  pdfText (state w1) = Num 5
  /\ fst (analyzeSymptoms Samples2.numeric_text_reply RefJSON.parse w1)
     = Throw "medicalData.trim is not a function".
Proof.
  cbv zeta. split; [reflexivity|].
  exact (proj2 (proj1 (analyzeSymptoms_uncaught Samples2.numeric_text_reply RefJSON.parse
                         (snd (handleFileUpload Samples2.numeric_text_reply
                                 (Some Samples.pdf_file)
                                 (Samples.world_of Samples.pasted)))
                         "medicalData.trim is not a function"))
           eq_refl).
Defined.

(** ** Cause analysis *)

#[local] Opaque callClaude.



(** ** What the steps of a handler leave alone *)

Ltac frame_step :=
  match goal with
  | |- keeps _ (bind _ _) => apply AppFacts.keeps_bind; [|intros ?]
  | |- keeps _ (try_catch _ _) => apply AppFacts.keeps_try_catch; [|intros ?]
  | |- keeps _ (try_finally _ _) => apply AppFacts.keeps_try_finally
  | |- keeps _ (ret _) => apply AppFacts.keeps_ret
  | |- keeps _ (throw _) => apply AppFacts.keeps_throw
  | |- keeps _ (lift _) => apply AppFacts.keeps_lift
  | |- keeps _ (gets _) => apply AppFacts.keeps_gets
  | |- keeps _ (match ?x with _ => _ end) => destruct x
  | |- keeps _ _ => solve [intros ?; reflexivity | assumption | auto]
  end.

(** A guarded block leaves an observation where its first step left it, when
    neither the continuation, nor an alert, nor the clearing of the busy flag
    touches the observation. *)
Lemma block_observes {A X} (f : World -> X) (c : M World A) (k : A -> M World unit)
      (text : string -> string) (w : World) :
  (forall a, keeps f (k a)) ->
  (forall t w, f (alerted t w) = f w) ->
  (forall w, f (idle w) = f w) ->
  f (snd (try_finally (try_catch (bind c k) (fun m => alert (text m)))
                      (setLoading false) w))
  = f (snd (c w)).
Proof.
  intros Hk Halert Hidle. unfold try_finally, try_catch, bind.
  destruct (c w) as [[a|m] w1]; cbn.
  - specialize (Hk a w1). destruct (k a w1) as [[u|m] w2]; cbn in *.
    + change (f (idle w2) = f w1). now rewrite Hidle.
    + change (f (idle (alerted (text m) w2)) = f w1). now rewrite Hidle, Halert.
  - change (f (idle (alerted (text m) w1)) = f w1). now rewrite Hidle, Halert.
Qed.

#[local] Transparent callClaude.

Section Insensitive.
Context {X : Type} (f : World -> X).
Hypothesis f_log : forall msg ty w, f (logged_entry msg ty w) = f w.
Hypothesis f_sent : forall rq w, f (sent rq w) = f w.

Lemma insensitive_addDebugLog (msg : string) (ty : LogType) : keeps f (addDebugLog msg ty).
Proof. intros w. apply f_log. Qed.

Lemma insensitive_fetch net (rq : Request) : keeps f (fetch net rq).
Proof. intros w. unfold fetch. destruct (net rq); apply f_sent. Qed.

Lemma insensitive_callClaude net (prompt context : string) :
  keeps f (callClaude net prompt context).
Proof.
  pose proof insensitive_addDebugLog. pose proof insensitive_fetch.
  unfold callClaude. repeat frame_step.
Qed.

Lemma insensitive_extractTextFromPDF net (file : File) :
  keeps f (extractTextFromPDF net file).
Proof.
  pose proof insensitive_addDebugLog. pose proof insensitive_callClaude.
  unfold extractTextFromPDF. repeat frame_step.
Qed.
End Insensitive.

#[local] Opaque callClaude.



(** ** Document ingestion *)

(** A file that is not a PDF is refused before anything is read or sent: one
    error entry in the debug log, one message to the user, and the rest of the
    world as it was. *)
Theorem non_pdf_upload_rejected net (f : File) (w : World) :
  file_type f <> "application/pdf" ->
  handleFileUpload net (Some f) w
  = (Ok tt,
     mkWorld (with_debugLogs
                (debugLogs (state w) ++ [mkLog "Invalid file type - PDF required" error])
                (state w))
             (alerts w ++ ["Please upload a PDF file"])
             (requests w)).
Proof.
  intros Htype. apply String.eqb_neq in Htype.
  rewrite handleFileUpload_block, Htype. reflexivity.
Qed.

Lemma non_pdf_upload_rejected_witness :
  let r := handleFileUpload (Samples.relay_to "ok")
                            (Some (mkFile "image/png" (Some "data:image/png;base64,iVBOR")))
                            (Samples.world_of Samples.pasted) in
  alerts (snd r) = ["Please upload a PDF file"] /\ requests (snd r) = [].
Proof.
  assert (Htype : file_type (mkFile "image/png" (Some "data:image/png;base64,iVBOR"))
                  <> "application/pdf") by discriminate.
  cbv zeta.
  rewrite (non_pdf_upload_rejected (Samples.relay_to "ok") _
             (Samples.world_of Samples.pasted) Htype).
  split; reflexivity.
Defined.

(** Whenever [handleFileUpload] shows a message to the user, it has left
    the active tab and the document text as they were: the tab advances and
    the text is replaced only on the path that shows nothing. *)
Theorem upload_alert_leaves_stage net (file : option File) (w : World) :
  let r := handleFileUpload net file w in
  alerts (snd r) = alerts w
  \/ (activeTab (state (snd r)) = activeTab (state w)
      /\ pdfText (state (snd r)) = pdfText (state w)).
Proof.
  cbv zeta. destruct file as [f|]; [|now left].
  rewrite handleFileUpload_block. destruct (negb _); [right; split; reflexivity|].
  destruct (extractTextFromPDF net f (busy w)) as [[text|m] w1] eqn:E.
  - left. rewrite (block_returns _ _ _ _ _ _ E). cbn.
    pose proof (insensitive_extractTextFromPDF alerts
                  (fun _ _ _ => eq_refl) (fun _ _ => eq_refl) net f (busy w)) as H.
    rewrite E in H. exact H.
  - right. rewrite (block_throws _ _ _ _ _ _ E). cbn.
    pose proof (insensitive_extractTextFromPDF (fun w => activeTab (state w))
                  (fun _ _ _ => eq_refl) (fun _ _ => eq_refl) net f (busy w)) as H1.
    pose proof (insensitive_extractTextFromPDF (fun w => pdfText (state w))
                  (fun _ _ _ => eq_refl) (fun _ _ => eq_refl) net f (busy w)) as H2.
    rewrite E in H1, H2. split; assumption.
Qed.

Lemma substring_length_le (n : nat) (s : string) :
  String.length (substring 0 n s) <= n.
Proof.
  revert s. induction n as [|n IH]; intros [|c t]; cbn; try lia.
  specialize (IH t). lia.
Qed.

Lemma extract_requests net (f : File) (w : World) (dataURL_text part : string) :
  dataURL f = Some dataURL_text ->
  base64_part dataURL_text = Some part ->
  requests (snd (extractTextFromPDF net f w))
  = requests (snd (callClaude net pdf_prompt (pdf_context part)
                              (logged_entry "Extracting text from PDF..." info w))).
Proof.
  intros Hurl Hpart. unfold base64_part in Hpart.
  unfold extractTextFromPDF, try_catch, bind, ret, addDebugLog, setState, modify, throw.
  rewrite Hurl, Hpart.
  change (mkWorld _ (alerts w) (requests w))
    with (logged_entry "Extracting text from PDF..." info w).
  unfold pdf_context.
  destruct (callClaude net pdf_prompt _ _) as [[t|m] w2]; reflexivity.
Qed.

(** Of an uploaded PDF, only the first 1000 characters of the base64 text
    of its data URL reach the relay: with a key configured, [handleFileUpload]
    sends exactly one request, whose user message is that prefix between
    [PDF Content (base64): ] and [...], a blank line and the instruction. *)
Theorem upload_sends_truncated_document net (f : File) (w : World)
        (dataURL_text part : string) :
  apiKey (state w) <> "" ->
  file_type f = "application/pdf" ->
  dataURL f = Some dataURL_text ->
  nth_error (split ","%char dataURL_text) 1 = Some part ->
  requests (snd (handleFileUpload net (Some f) w))
  = (requests w
       ++ [relay_request (apiKey (state w))
             (("PDF Content (base64): " ++ substring 0 1000 part ++ "...")
              ++ nl ++ nl ++ pdf_prompt)])%list
  /\ String.length (substring 0 1000 part) <= 1000.
Proof.
  intros Hkey Htype Hurl Hpart. apply String.eqb_neq in Hkey.
  split; [|apply substring_length_le].
  rewrite handleFileUpload_block, Htype, String.eqb_refl. cbn [negb].
  rewrite (block_observes requests).
  - rewrite (extract_requests _ _ _ _ _ Hurl Hpart).
    rewrite ClaudeFacts.requests_after_call. cbn. rewrite Hkey. reflexivity.
  - intros a. repeat frame_step.
  - reflexivity.
  - reflexivity.
Qed.

Lemma upload_sends_truncated_document_witness :
  requests (snd (handleFileUpload Samples.upstream_unreachable (Some Samples.pdf_file)
                                  (Samples.world_of Samples.pasted)))
  = [relay_request "sk-test"
       (("PDF Content (base64): " ++ "JVBERi0x" ++ "...") ++ nl ++ nl ++ pdf_prompt)]
  /\ String.length (substring 0 1000 "JVBERi0x") <= 1000.
Proof.
  assert (Hkey : apiKey (state (Samples.world_of Samples.pasted)) <> "") by discriminate.
  exact (upload_sends_truncated_document Samples.upstream_unreachable Samples.pdf_file
           (Samples.world_of Samples.pasted)
           "data:application/pdf;base64,JVBERi0x" "JVBERi0x"
           Hkey eq_refl eq_refl eq_refl).
Defined.

(** ** Solution lookup *)

Lemma truthy_not_nullish (v : value) : truthy v = true -> nullish v = false.
Proof. destruct v; cbn; congruence. Qed.

(** Without analysed causes ([potentialCauses] is [null]) [findSolutions]
    shows one message, sends nothing and leaves the state as it was. *)
Theorem solutions_need_causes net JSON_parse (w : World) :
  truthy (potentialCauses (state w)) = false ->
  findSolutions net JSON_parse w
  = (Ok tt, mkWorld (state w) (alerts w ++ ["Please analyze causes first"]) (requests w)).
Proof.
  intros Hnone. rewrite findSolutions_block, Hnone. reflexivity.
Qed.

Lemma solutions_need_causes_witness :
  findSolutions (Samples.relay_to Samples2.no_solutions_reply) RefJSON.parse
                (Samples.world_of Samples.one_confirmed)
  = (Ok tt, mkWorld Samples.one_confirmed ["Please analyze causes first"] []).
Proof.
  exact (solutions_need_causes (Samples.relay_to Samples2.no_solutions_reply)
           RefJSON.parse (Samples.world_of Samples.one_confirmed) eq_refl).
Defined.

(** When the stored causes have no list of conditions to map over (no
    [causes] array, or an element that is [null]), [findSolutions] fails
    before it calls the relay: the user sees the TypeError's message, no
    request is sent, the solutions and the active tab are unchanged and the
    busy flag is cleared. *)
Theorem solutions_fail_without_condition_list net JSON_parse (w : World) (m : string) :
  truthy (potentialCauses (state w)) = true ->
  map_method "potentialCauses.causes" (prop (potentialCauses (state w)) "causes")
             "condition" = Throw m ->
  let r := findSolutions net JSON_parse w in
  fst r = Ok tt
  /\ alerts (snd r) = (alerts w ++ [("Failed to find solutions: " ++ m)%string])%list
  /\ requests (snd r) = requests w
  /\ solutions (state (snd r)) = solutions (state w)
  /\ activeTab (state (snd r)) = activeTab (state w)
  /\ loading (state (snd r)) = false.
Proof.
  intros Hsome Hmap. cbv zeta. rewrite findSolutions_block, Hsome. cbn [negb].
  unfold try_finally, try_catch, bind, lift.
  rewrite (RelayMore.member_non_nullish _ _ (truthy_not_nullish _ Hsome)), Hmap.
  cbn. repeat split.
Qed.

Lemma solutions_fail_without_condition_list_witness :
  let w1 := snd (analyzeCauses (Samples.relay_to "Nothing found: {}") RefJSON.parse
                               (Samples.world_of Samples.one_confirmed)) in
  let r := findSolutions (Samples.relay_to Samples2.no_solutions_reply) RefJSON.parse w1 in
  activeTab (state w1) = causes_tab
  /\ potentialCauses (state w1) = Obj []
  /\ fst r = Ok tt
  /\ alerts (snd r)
     = (alerts w1
          ++ ["Failed to find solutions: Cannot read properties of undefined (reading 'map')"])%list
  /\ requests (snd r) = requests w1
  /\ solutions (state (snd r)) = solutions (state w1)
  /\ activeTab (state (snd r)) = activeTab (state w1)
  /\ loading (state (snd r)) = false.
Proof.
  cbv zeta. split; [reflexivity|]. split; [reflexivity|].
  exact (solutions_fail_without_condition_list
           (Samples.relay_to Samples2.no_solutions_reply) RefJSON.parse
           (snd (analyzeCauses (Samples.relay_to "Nothing found: {}") RefJSON.parse
                               (Samples.world_of Samples.one_confirmed)))
           "Cannot read properties of undefined (reading 'map')" eq_refl eq_refl).
Defined.



(** ** The controller in front of the relay *)




End HandlerFacts.

(** * More properties of the string methods and of the regular expressions *)

Module StringMore.
Import JsString Steps.











End StringMore.

Module RegexMore.
Import Regex.

Lemma delimited_starts_at_first_open (open close : ascii) (s m : string) :
  delimited open close s = Some m ->
  exists before inside after,
    s = before ++ String open (inside ++ String close after)
    /\ m = String open (inside ++ String close "")
    /\ has_char open before = false
    /\ has_char close after = false.
Proof.
  revert m. induction s as [|x t IH]; cbn; intros m H; [discriminate H|].
  destruct (Ascii.eqb x open) eqn:Ex.
  - apply Ascii.eqb_eq in Ex. subst x.
    destruct (greedy_to close t) as [m'|] eqn:E.
    + inversion H; subst.
      destruct (RegexFacts.greedy_to_some _ _ _ E) as (i & a & -> & -> & Ha).
      now exists "", i, a.
    + apply RegexFacts.greedy_to_none in E.
      rewrite (RegexFacts.delimited_needs_close open close t E) in H. discriminate H.
  - destruct (IH m H) as (b & i & a & -> & -> & Hb & Ha).
    exists (String x b), i, a. cbn. rewrite Ex. now repeat split.
Qed.

(** What the two patterns match: [s.match] returns the text [m] exactly
    when [m] runs from the first opening character of [s] to the last closing
    character of [s] and the two come in this order. Nothing shorter is
    matched, even when a shorter span is the only well-formed one. *)
Theorem match_is_first_open_to_last_close (open close : ascii) (s m : string) :
  delimited open close s = Some m
  <->
  exists before inside after,
    s = before ++ String open (inside ++ String close after)
    /\ m = String open (inside ++ String close "")
    /\ has_char open before = false
    /\ has_char close after = false.
Proof.
  split.
  - apply delimited_starts_at_first_open.
  - intros (b & i & a & -> & -> & Hb & Ha).
    now apply RegexFacts.delimited_first_to_last.
Qed.

End RegexMore.

(** * Properties of the credential and chat handlers *)

Module UiFacts.
Import Eff Eff.Notations Js Net JsString Ui.

(** ** The stored credential *)



(** ** Transcripts *)






(** ** Sending a chat message *)

#[local] Opaque App.callClaude.


(** With no open topic, or with an input that is empty or white space only,
    [sendChatMessage] does nothing at all. *)
Theorem chat_needs_topic_and_question net (u : World) :
  activeChatSource u = None \/ whitespace_only (chatInput u) = true ->
  sendChatMessage net u = (Ok tt, u).
Proof.
  intros H. unfold sendChatMessage, bind, gets.
  destruct (activeChatSource u) as [src|]; [|reflexivity].
  destruct H as [H|H]; [discriminate H|].
  apply StringFacts.trim_empty in H. now rewrite H.
Qed.

Lemma chat_needs_topic_and_question_witness :
  sendChatMessage Samples.upstream_unreachable (initial (Some "sk-test"))
  = (Ok tt, initial (Some "sk-test")).
Proof.
  exact (chat_needs_topic_and_question Samples.upstream_unreachable
           (initial (Some "sk-test")) (or_introl eq_refl)).
Defined.





End UiFacts.
